(** * mise-vscode: task catalog, argument collection, watch guard, file watcher

    A shallow embedding of [providers/tasksProvider.ts] ([MiseTasksProvider])
    and of [miseFileWatcher.ts] ([MiseFileWatcher]).

    - JavaScript values that the code tests for truthiness are modelled with
      their truthiness written out ([truthy], [truthy_str]).
    - The plain object [{}] that [groupTasksBySource] folds into is an
      association list of own properties in insertion order, read through
      the prototype chain ([js_get]) and enumerated as [Object.entries]
      does ([TaskTree.Object_entries]).
    - Asynchronous methods are functions in the monad [M]: they consume the
      scripted answers of the user, emit the calls they make on their
      collaborators as a list of [Event]s and either return or throw. *)

From Stdlib Require Import String List Bool Arith Lia Permutation.
From Stdlib Require Import Ascii NArith.
Import ListNotations.
Local Open Scope string_scope.
Local Open Scope list_scope.

Local Notation "a ^^ b" := (String.append a b)
  (at level 60, right associativity).

(** ** JavaScript values *)

(** [Boolean(s)] for a string: only the empty string is falsy. *)
Definition truthy_str (s : string) : bool := negb (String.eqb s "").

(** [Boolean(v)] for a [string | undefined]. *)
Definition truthy (v : option string) : bool :=
  match v with
  | Some s => truthy_str s
  | None => false
  end.

(** An [Error] object: its [name] ("Error", "TypeError") and [message]. *)
Record JsError := mkJsError { err_name : string; err_message : string }.

Definition Error (message : string) : JsError := mkJsError "Error" message.
Definition TypeError (message : string) : JsError :=
  mkJsError "TypeError" message.

(** [`${error}`], that is [Error.prototype.toString]: the message alone
    when the name is empty, the name alone when the message is empty,
    and otherwise both, separated by a colon and a space. *)
Definition error_toString (e : JsError) : string :=
  if String.eqb (err_name e) "" then err_message e
  else if String.eqb (err_message e) "" then err_name e
  else err_name e ^^ ": " ^^ err_message e.

(** Completion of a call: a value, or a thrown error (a rejected promise). *)
Inductive Result (A : Type) : Type :=
| Ok (a : A)
| Throw (e : JsError).
Arguments Ok {A} a.
Arguments Throw {A} e.

(** ** Data model *)

Record MiseTask := mkTask {
  task_name : string;
  task_source : option string;
  task_description : string
}.

Record MiseTool := mkTool { tool_name : string }.

Record PositionalArg := mkArg { arg_name : string; arg_required : bool }.

Record FlagArg := mkFlag { flag_name : string; flag_arg : option string }.

Record UsageSpec := mkSpec { args : list PositionalArg; flags : list FlagArg }.

Record MiseTaskInfo := mkInfo { usageSpec : UsageSpec }.

Record ExecResult := mkExec { stdout : string; stderr : string }.

Record MiseConfigFile := mkConfigFile { file_path : string }.

(** ** [groupTasksBySource] *)

Module Catalog.

(** The own properties of the [groups] object, in the order in which they
    were created. (The order in which [Object.entries] lists them, integer
    keys first, belongs to [getChildren], not to this method.) *)
Definition JsObject := list (string * list MiseTask).

(** The property names every plain object inherits from [Object.prototype].
    Each of them holds a function (or, for [__proto__], the prototype
    object): a truthy value that has no [push]. *)
Definition Object_prototype_keys : list string :=
  [ "constructor"; "__defineGetter__"; "__defineSetter__"; "hasOwnProperty";
    "__lookupGetter__"; "__lookupSetter__"; "isPrototypeOf";
    "propertyIsEnumerable"; "toString"; "valueOf"; "__proto__";
    "toLocaleString" ].

Definition inherited (key : string) : bool :=
  existsb (String.eqb key) Object_prototype_keys.

(** What [groups[key]] evaluates to. *)
Inductive PropertyValue :=
| PV_array (a : list MiseTask)
| PV_inherited
| PV_undefined.

Fixpoint own_get (key : string) (o : JsObject) : option (list MiseTask) :=
  match o with
  | [] => None
  | (k, v) :: o' => if String.eqb key k then Some v else own_get key o'
  end.

Definition js_get (o : JsObject) (key : string) : PropertyValue :=
  match own_get key o with
  | Some a => PV_array a
  | None => if inherited key then PV_inherited else PV_undefined
  end.

(** [groups[key] = v] on an own or a new property. *)
Fixpoint own_set (key : string) (v : list MiseTask) (o : JsObject)
  : JsObject :=
  match o with
  | [] => [(key, v)]
  | (k, v') :: o' =>
      if String.eqb key k then (k, v) :: o' else (k, v') :: own_set key v o'
  end.

(** [!groups[source]]: arrays (also empty ones) and functions are truthy. *)
Definition falsy_value (p : PropertyValue) : bool :=
  match p with
  | PV_undefined => true
  | _ => false
  end.

(** [task.source || "Unknown"]. *)
Definition source_key (task : MiseTask) : string :=
  match task_source task with
  | Some s => if truthy_str s then s else "Unknown"
  | None => "Unknown"
  end.

(** The callback of [tasks.reduce]. *)
Definition reducer (groups : JsObject) (task : MiseTask) : Result JsObject :=
  let source := source_key task in
  let groups :=
    if falsy_value (js_get groups source)
    then own_set source [] groups
    else groups in
  match js_get groups source with
  | PV_array a => Ok (own_set source (a ++ [task]) groups)
  | _ => Throw (TypeError "groups[source].push is not a function")
  end.

(** [tasks.reduce(callback, init)]; a throwing callback ends the fold. *)
Fixpoint reduce (groups : JsObject) (tasks : list MiseTask)
  : Result JsObject :=
  match tasks with
  | [] => Ok groups
  | task :: rest =>
      match reducer groups task with
      | Ok groups' => reduce groups' rest
      | Throw e => Throw e
      end
  end.

Definition groupTasksBySource (tasks : list MiseTask) : Result JsObject :=
  reduce [] tasks.

(** The tasks of all groups, group after group. *)
Definition all_grouped (groups : JsObject) : list MiseTask :=
  concat (map snd groups).

(** The tasks of [tasks] whose group key is [key], in the order of [tasks]. *)
Definition tasks_of (key : string) (tasks : list MiseTask) : list MiseTask :=
  filter (fun t => String.eqb (source_key t) key) tasks.

(** The invariant of the fold: after the tasks [done], the own properties
    are exactly the non-empty classes of [done]. *)
Definition grouped (groups : JsObject) (done : list MiseTask) : Prop :=
  NoDup (map fst groups)
  /\ (forall key,
         (own_get key groups = None /\ tasks_of key done = [])
         \/ (own_get key groups = Some (tasks_of key done)
             /\ tasks_of key done <> []))
  /\ Permutation (all_grouped groups) done.

End Catalog.

(** ** Collaborators and the monad of asynchronous methods *)

Inductive LogLevel := Warn | Info.

(** The calls a method makes on its collaborators, in program order.
    [E_collectArgumentValues] records the entry into the private method
    [collectArgumentValues]. *)
Inductive Event :=
| E_getTools
| E_execAsync (command : string)
| E_getTaskInfo (taskName : string)
| E_collectArgumentValues
| E_showInputBox (prompt placeHolder : string)
| E_showQuickPick (placeHolder : string)
| E_runTask (taskName : string) (extra : list string)
| E_watchTask (taskName : string) (extra : list string)
| E_showErrorMessage (message : string)
| E_execMiseCommand (command : string)
| E_onConfigChangeCallback (uri : string)
| E_getMiseConfigFiles
| E_logger (level : LogLevel) (message : string).

(** What the collaborators answer during one operation: [MiseService],
    [execAsync], the configuration module and the change callback. A
    [Throw] is a rejected promise. *)
Record World := mkWorld {
  getTools : Result (list MiseTool);
  execAsync : string -> Result ExecResult;
  getTaskInfo : string -> Result (option MiseTaskInfo);
  miseService_runTask : string -> list string -> Result unit;
  miseService_watchTask : string -> list string -> Result unit;
  execMiseCommand : string -> Result ExecResult;
  isMiseExtensionEnabled : bool;
  onConfigChangeCallback : string -> Result unit;
  getRootFolder : option string;
  getMiseConfigFiles : Result (list MiseConfigFile)
}.

(** What the user does at the successive prompts: [Some v] submits [v],
    [None] dismisses the prompt. A script that has run out dismisses. *)
Definition Script := list (option string).

Definition M (A : Type) : Type := Script -> Result A * list Event * Script.

Definition ret {A} (a : A) : M A := fun s => (Ok a, [], s).

Definition throw {A} (e : JsError) : M A := fun s => (Throw e, [], s).

Definition bind {A B} (m : M A) (k : A -> M B) : M B :=
  fun s =>
    match m s with
    | (Ok a, t1, s1) =>
        match k a s1 with
        | (r, t2, s2) => (r, t1 ++ t2, s2)
        end
    | (Throw e, t1, s1) => (Throw e, t1, s1)
    end.

(** [try { m } catch (error) { handler(error) }]. *)
Definition try_catch {A} (m : M A) (handler : JsError -> M A) : M A :=
  fun s =>
    match m s with
    | (Ok a, t1, s1) => (Ok a, t1, s1)
    | (Throw e, t1, s1) =>
        match handler e s1 with
        | (r, t2, s2) => (r, t1 ++ t2, s2)
        end
    end.

Definition emit (ev : Event) : M unit := fun s => (Ok tt, [ev], s).

(** [await call]: the call is made, then its promise settles. *)
Definition await {A} (ev : Event) (r : Result A) : M A :=
  fun s => (r, [ev], s).

Notation "x <- m ;; k" := (bind m (fun x => k))
  (at level 61, m at next level, right associativity).
Notation "m ;;; k" := (bind m (fun _ => k))
  (at level 61, right associativity).

Definition result_of {A} (x : Result A * list Event * Script) : Result A :=
  fst (fst x).
Definition trace_of {A} (x : Result A * list Event * Script) : list Event :=
  snd (fst x).
Definition script_of {A} (x : Result A * list Event * Script) : Script :=
  snd x.

(** The user at an input box. A submitted value that [validateInput]
    refuses (it returns a message) is not accepted and the box stays open. *)
Fixpoint submit (validateInput : string -> option string) (s : Script)
  : option string * Script :=
  match s with
  | [] => (None, [])
  | None :: rest => (None, rest)
  | Some v :: rest =>
      match validateInput v with
      | None => (Some v, rest)
      | Some _ => submit validateInput rest
      end
  end.

(** [vscode.window.showInputBox({prompt, placeHolder, validateInput})]. *)
Definition showInputBox (prompt placeHolder : string)
    (validateInput : string -> option string) : M (option string) :=
  fun s =>
    let (value, s') := submit validateInput s in
    (Ok value, [E_showInputBox prompt placeHolder], s').

(** [vscode.window.showQuickPick(["Yes", "No"], {placeHolder})]: the picked
    item, or [undefined]. *)
Definition showQuickPick (placeHolder : string) : M (option string) :=
  fun s =>
    match s with
    | [] => (Ok None, [E_showQuickPick placeHolder], [])
    | a :: rest => (Ok a, [E_showQuickPick placeHolder], rest)
    end.

(** [for (const x of xs) { cmdArgs = body(x, cmdArgs) }], ended by a throw. *)
Fixpoint for_of {A} (xs : list A) (body : A -> list string -> M (list string))
    (cmdArgs : list string) : M (list string) :=
  match xs with
  | [] => ret cmdArgs
  | x :: rest => cmdArgs' <- body x cmdArgs ;; for_of rest body cmdArgs'
  end.

(** ** [MiseTasksProvider] *)

Definition value_of (v : option string) : string :=
  match v with
  | Some s => s
  | None => ""
  end.

(** The [validateInput] callback of a positional argument's input box. *)
Definition validateInput (arg : PositionalArg) (value : string)
  : option string :=
  if arg_required arg && negb (truthy_str value)
  then Some (arg_name arg ^^ " is required")
  else None.

Definition no_validation (value : string) : option string := None.

Definition MissingRequired (name : string) : JsError :=
  Error ("Required argument " ^^ name ^^ " was not provided").

(** The prompt of one positional argument. *)
Definition prompt_arg (arg : PositionalArg) : M (option string) :=
  showInputBox ("Enter value for " ^^ arg_name arg) (arg_name arg)
    (validateInput arg).

(** Body of the loop over [spec.args]. *)
Definition collect_arg (arg : PositionalArg) (cmdArgs : list string)
  : M (list string) :=
  value <- prompt_arg arg ;;
  if truthy value then ret (cmdArgs ++ [value_of value])
  else if arg_required arg then throw (MissingRequired (arg_name arg))
  else ret cmdArgs.

Definition is_Yes (picked : option string) : bool :=
  match picked with
  | Some s => String.eqb s "Yes"
  | None => false
  end.

(** Body of the loop over [spec.flags]. *)
Definition collect_flag (flag : FlagArg) (cmdArgs : list string)
  : M (list string) :=
  if truthy (flag_arg flag) then
    shouldProvide <-
      showQuickPick ("Do you want to provide " ^^ flag_name flag ^^ "?") ;;
    if is_Yes shouldProvide then
      value <- showInputBox ("Enter value for " ^^ flag_name flag)
                 (value_of (flag_arg flag)) no_validation ;;
      if truthy value
      then ret (cmdArgs ++ [flag_name flag; value_of value])
      else ret cmdArgs
    else ret cmdArgs
  else
    shouldEnable <- showQuickPick ("Enable " ^^ flag_name flag ^^ "?") ;;
    if is_Yes shouldEnable
    then ret (cmdArgs ++ [flag_name flag])
    else ret cmdArgs.

(** The yes/no question that [collect_flag] asks for [flag]. *)
Definition flag_question (flag : FlagArg) : string :=
  if truthy (flag_arg flag)
  then "Do you want to provide " ^^ flag_name flag ^^ "?"
  else "Enable " ^^ flag_name flag ^^ "?".

Definition collect_args (l : list PositionalArg) := for_of l collect_arg.
Definition collect_flags (l : list FlagArg) := for_of l collect_flag.

Definition collectArgumentValues (info : MiseTaskInfo) : M (list string) :=
  emit E_collectArgumentValues ;;;
  let spec := usageSpec info in
  cmdArgs <- collect_args (args spec) [] ;;
  collect_flags (flags spec) cmdArgs.

Definition TaskNotFound (taskName : string) : JsError :=
  Error ("Task '" ^^ taskName ^^ "' not found").

Definition failed_to_run (taskName : string) (error : JsError) : string :=
  "Failed to run task '" ^^ taskName ^^ "': " ^^ error_toString error.

Definition watchexec_required : string :=
  "watchexec is required to run tasks in watch mode. Install it with `mise use -g watchexec`".

(** [taskInfo.usageSpec.args.length > 0 || taskInfo.usageSpec.flags.length > 0] *)
Definition needs_arguments (taskInfo : MiseTaskInfo) : bool :=
  Nat.ltb 0 (List.length (args (usageSpec taskInfo)))
  || Nat.ltb 0 (List.length (flags (usageSpec taskInfo))).

Section TasksProvider.

Variable w : World.

Definition runTask (taskName : string) : M unit :=
  try_catch
    (taskInfo <- await (E_getTaskInfo taskName) (getTaskInfo w taskName) ;;
     match taskInfo with
     | None => throw (TaskNotFound taskName)
     | Some taskInfo =>
         if needs_arguments taskInfo then
           extra <- collectArgumentValues taskInfo ;;
           await (E_runTask taskName extra)
             (miseService_runTask w taskName extra)
         else
           await (E_runTask taskName []) (miseService_runTask w taskName [])
     end)
    (fun error => emit (E_showErrorMessage (failed_to_run taskName error))).

(** [Promise.allSettled] of two calls: both are made, neither rejection
    is propagated. *)
Definition allSettled2 {A B} (ev1 : Event) (r1 : Result A)
    (ev2 : Event) (r2 : Result B) : M (Result A * Result B) :=
  fun s => (Ok (r1, r2), [ev1; ev2], s).

Definition is_watchexec (tool : MiseTool) : bool :=
  String.eqb (tool_name tool) "watchexec".

(** [!v] for the [MiseTool | undefined] that [find] returns. *)
Definition not_found (v : option MiseTool) : bool :=
  match v with
  | Some _ => false
  | None => true
  end.

(** [res1.status === "fulfilled" ? res1.value : []] *)
Definition tools_of (res1 : Result (list MiseTool)) : list MiseTool :=
  match res1 with
  | Ok value => value
  | Throw _ => []
  end.

(** [res2.status === "fulfilled" ? res2.value.stdout : ""] *)
Definition stdout_of (res2 : Result ExecResult) : string :=
  match res2 with
  | Ok value => stdout value
  | Throw _ => ""
  end.

(** The [try] statement of [watchTask]. *)
Definition watchTask_try (taskName : string) : M unit :=
  try_catch
    (taskInfo <- await (E_getTaskInfo taskName) (getTaskInfo w taskName) ;;
     match taskInfo with
     | None => throw (TaskNotFound taskName)
     | Some taskInfo =>
         if needs_arguments taskInfo then
           extra <- collectArgumentValues taskInfo ;;
           await (E_watchTask taskName extra)
             (miseService_watchTask w taskName extra)
         else
           await (E_watchTask taskName [])
             (miseService_watchTask w taskName [])
     end)
    (fun error => emit (E_showErrorMessage (failed_to_run taskName error))).

Definition watchTask (taskName : string) : M unit :=
  settled <- allSettled2 E_getTools (getTools w)
               (E_execAsync "which watchexec")
               (execAsync w "which watchexec") ;;
  let tools := tools_of (fst settled) in
  let watchexecFromTools := find is_watchexec tools in
  let watchexec := stdout_of (snd settled) in
  if negb (truthy_str watchexec) && not_found watchexecFromTools then
    emit (E_showErrorMessage watchexec_required)
  else
    watchTask_try taskName.

End TasksProvider.

(** [!watchexec && !watchexecFromTools] on the settled probes of [w]. *)
Definition watchexec_missing (w : World) : bool :=
  negb (truthy_str (stdout_of (execAsync w "which watchexec")))
  && not_found (find is_watchexec (tools_of (getTools w))).

(** The same collaborators, with another answer of the tool listing or of
    the [which watchexec] probe. *)
Definition with_getTools (r : Result (list MiseTool)) (w : World) : World :=
  mkWorld r (execAsync w) (getTaskInfo w) (miseService_runTask w)
    (miseService_watchTask w) (execMiseCommand w) (isMiseExtensionEnabled w)
    (onConfigChangeCallback w) (getRootFolder w) (getMiseConfigFiles w).

Definition with_execAsync (f : string -> Result ExecResult) (w : World)
  : World :=
  mkWorld (getTools w) f (getTaskInfo w) (miseService_runTask w)
    (miseService_watchTask w) (execMiseCommand w) (isMiseExtensionEnabled w)
    (onConfigChangeCallback w) (getRootFolder w) (getMiseConfigFiles w).

(** A source of the watch prerequisite reports presence: the tool listing
    was returned and has an entry named watchexec; the [which] probe was
    fulfilled with some output. *)
Definition listing_reports (res1 : Result (list MiseTool)) : Prop :=
  exists tools tool,
    res1 = Ok tools /\ In tool tools /\ tool_name tool = "watchexec".

Definition probe_reports (res2 : Result ExecResult) : Prop :=
  exists value, res2 = Ok value /\ stdout value <> "".

(** The outcome of [watchTask] that only tells the user to install
    watchexec: both probes were made, nothing else was called. *)
Definition MissingWatchPrerequisite (s : Script)
  : Result unit * list Event * Script :=
  (Ok tt,
   [E_getTools; E_execAsync "which watchexec";
    E_showErrorMessage watchexec_required],
   s).

(** [watchTask] went on to look the task up. *)
Definition proceeds (taskName : string)
    (x : Result unit * list Event * Script) : Prop :=
  exists t,
    trace_of x =
    [E_getTools; E_execAsync "which watchexec"; E_getTaskInfo taskName] ++ t.

(** What is shown after a call of the backend, if it rejected. *)
Definition report (taskName : string) (r : Result unit) : list Event :=
  match r with
  | Ok _ => []
  | Throw e => [E_showErrorMessage (failed_to_run taskName e)]
  end.

(** The backend's run and watch operations. *)
Definition is_invocation (ev : Event) : bool :=
  match ev with
  | E_runTask _ _ | E_watchTask _ _ => true
  | _ => false
  end.

Definition is_prompt (ev : Event) : bool :=
  match ev with
  | E_showInputBox _ _ | E_showQuickPick _ => true
  | _ => false
  end.

(** ** [MiseFileWatcher] *)

Module FileWatcher.

(** The only handler the class registers: [this.handleFileChange.bind(this)]. *)
Inductive Handler := handleFileChange_bound.

(** A [vscode.FileSystemWatcher] on [new RelativePattern(base, pattern)]
    with the listeners registered on its three events. *)
Record FileSystemWatcher := mkWatcher {
  base : string;
  pattern : string;
  onDidChange : list Handler;
  onDidCreate : list Handler;
  onDidDelete : list Handler
}.

(** The fields the methods mutate. [subscriptions] holds references to
    watchers as indices into [fileWatchers]. *)
Record MiseFileWatcher := mkFileWatcher {
  fileWatchers : list FileSystemWatcher;
  subscriptions : list nat
}.

Definition createFileSystemWatcher (base pattern : string)
  : FileSystemWatcher :=
  mkWatcher base pattern [] [] [].

Definition push_watcher (fw : FileSystemWatcher) (this : MiseFileWatcher)
  : MiseFileWatcher :=
  mkFileWatcher (fileWatchers this ++ [fw]) (subscriptions this).

(** One turn of the registration loop, on the watcher itself. *)
Definition register_handlers (fw : FileSystemWatcher) : FileSystemWatcher :=
  mkWatcher (base fw) (pattern fw)
    (onDidChange fw ++ [handleFileChange_bound])
    (onDidCreate fw ++ [handleFileChange_bound])
    (onDidDelete fw ++ [handleFileChange_bound]).

(** [for (const watcher of this.fileWatchers) { ... }]. *)
Definition register_all (this : MiseFileWatcher) : MiseFileWatcher :=
  mkFileWatcher (map register_handlers (fileWatchers this))
    (subscriptions this ++ seq 0 (List.length (fileWatchers this))).

Inductive FsEvent := DidChange | DidCreate | DidDelete.

Definition listeners (kind : FsEvent) (fw : FileSystemWatcher)
  : list Handler :=
  match kind with
  | DidChange => onDidChange fw
  | DidCreate => onDidCreate fw
  | DidDelete => onDidDelete fw
  end.

Section Watcher.

(** Constants of [utils/miseUtilts], as they print in a template literal. *)
Variables misePatterns idiomaticFiles : string.
Variable allowedFileTaskDirs : list string.

Definition handleFileChange (w : World) (uri : string) : M unit :=
  if negb (isMiseExtensionEnabled w) then ret tt
  else
    try_catch
      (r <- await (E_execMiseCommand "tasks ls")
              (execMiseCommand w "tasks ls") ;;
       if truthy_str (stdout r)
       then await (E_onConfigChangeCallback uri) (onConfigChangeCallback w uri)
       else ret tt)
      (fun error =>
         emit (E_logger Info
                 ("Error while handling file change " ^^ error_toString error))).

(** [`{${allowedFileTaskDirs.map((dir) => `${dir}/**/*`)}}`] *)
Definition task_dirs_glob : string :=
  "{" ^^ String.concat "," (map (fun dir => dir ^^ "/**/*") allowedFileTaskDirs)
      ^^ "}".

(** [initializeFileWatcher], on the object [this]: its completion, the calls
    it made and the object as it leaves it. *)
Definition initializeFileWatcher (w : World) (this : MiseFileWatcher)
  : Result unit * list Event * MiseFileWatcher :=
  match getRootFolder w with
  | None => (Ok tt, [], this)
  | Some rootFolder =>
      let this :=
        push_watcher
          (createFileSystemWatcher rootFolder ("{" ^^ misePatterns ^^ "}"))
          this in
      match getMiseConfigFiles w with
      | Throw e => (Throw e, [E_getMiseConfigFiles], this)
      | Ok configFiles =>
          let this :=
            fold_left
              (fun this file =>
                 push_watcher (createFileSystemWatcher (file_path file) "*")
                   this)
              configFiles this in
          let this :=
            push_watcher
              (createFileSystemWatcher rootFolder
                 ("{" ^^ idiomaticFiles ^^ "}"))
              this in
          let this :=
            push_watcher (createFileSystemWatcher rootFolder task_dirs_glob)
              this in
          (Ok tt, [E_getMiseConfigFiles], register_all this)
      end
  end.

(** [new MiseFileWatcher(context, miseService, onConfigChangeCallback)]:
    the rejection of [initializeFileWatcher] is caught and logged. *)
Definition constructor (w : World)
  : Result unit * list Event * MiseFileWatcher :=
  match initializeFileWatcher w (mkFileWatcher [] []) with
  | (Ok _, t, this) => (Ok tt, t, this)
  | (Throw error, t, this) =>
      (Ok tt,
       t ++ [E_logger Warn "Error initializing file watcher";
             E_logger Info "Unable to initialize file watcher"],
       this)
  end.

(** The file system reports [kind] on [uri] to the [i]-th watcher, while the
    collaborators answer as in [w]: every listener registered for [kind]
    is called. *)
Definition fire (this : MiseFileWatcher) (w : World) (i : nat)
    (kind : FsEvent) (uri : string) : list Event :=
  match nth_error (fileWatchers this) i with
  | None => []
  | Some fw =>
      flat_map
        (fun h => match h with
                  | handleFileChange_bound =>
                      trace_of (handleFileChange w uri [])
                  end)
        (listeners kind fw)
  end.

(** A history of file-system events, each with the state of the world at
    its time. *)
Definition FsHistory := list (World * nat * FsEvent * string).

Definition fire_all (this : MiseFileWatcher) (h : FsHistory) : list Event :=
  flat_map (fun '(w, i, kind, uri) => fire this w i kind uri) h.

End Watcher.

End FileWatcher.

(** ** The task tree: [getChildren] *)

Module TaskTree.

Import Catalog.

(** The keys in the order in which they are first seen. *)
Fixpoint first_seen_from (seen keys : list string) : list string :=
  match keys with
  | [] => seen
  | key :: rest =>
      first_seen_from
        (if existsb (String.eqb key) seen then seen else seen ++ [key]) rest
  end.

Definition first_seen (keys : list string) : list string :=
  first_seen_from [] keys.

Definition is_digit (c : ascii) : bool :=
  Nat.leb 48 (nat_of_ascii c) && Nat.leb (nat_of_ascii c) 57.

Fixpoint decimal_value (acc : N) (s : string) : option N :=
  match s with
  | EmptyString => Some acc
  | String c rest =>
      if is_digit c
      then decimal_value (10 * acc + N.of_nat (nat_of_ascii c - 48)) rest
      else None
  end.

(** The property keys that are array indices: the canonical decimal
    numerals of the integers from 0 to 2^32 - 2. *)
Definition array_index (key : string) : option N :=
  match key with
  | EmptyString => None
  | String c rest =>
      if Ascii.eqb c "0" then
        match rest with
        | EmptyString => Some 0%N
        | String _ _ => None
        end
      else
        match decimal_value 0 key with
        | Some n => if (n <? 4294967295)%N then Some n else None
        | None => None
        end
  end.

Definition Entry : Type := string * list MiseTask.

Fixpoint insert_by_index (e : N * Entry) (l : list (N * Entry))
  : list (N * Entry) :=
  match l with
  | [] => [e]
  | e' :: l' =>
      if (fst e <=? fst e')%N then e :: l else e' :: insert_by_index e l'
  end.

Definition sort_by_index (l : list (N * Entry)) : list (N * Entry) :=
  fold_right insert_by_index [] l.

(** The own properties whose key is an array index, with the index. *)
Definition indexed (o : JsObject) : list (N * Entry) :=
  flat_map
    (fun p => match array_index (fst p) with
              | Some n => [(n, p)]
              | None => []
              end)
    o.

(** The other own properties. *)
Definition named (o : JsObject) : list Entry :=
  filter
    (fun p => match array_index (fst p) with
              | Some _ => false
              | None => true
              end)
    o.

(** [Object.entries(o)]: array indices in ascending order, then the other
    string keys in the order of their creation. *)
Definition Object_entries (o : JsObject) : list Entry :=
  map snd (sort_by_index (indexed o)) ++ named o.

(** [type TreeNode = SourceGroupItem | TaskItem], with the constructor
    arguments the items keep. *)
Inductive TreeNode :=
| SourceGroupItem (source : string) (tasks : list MiseTask)
| TaskItem (task : MiseTask).

(** The label an item passes to [vscode.TreeItem]. *)
Definition label (node : TreeNode) : string :=
  match node with
  | SourceGroupItem source _ => source
  | TaskItem task => task_name task
  end.

Definition group_item (e : Entry) : TreeNode :=
  SourceGroupItem (fst e) (snd e).

(** [getChildren(element)], given how [miseService.getTasks()] settles;
    the tasks are fetched at the root only. *)
Definition getChildren (getTasks : Result (list MiseTask))
    (element : option TreeNode) : Result (list TreeNode) :=
  match element with
  | None =>
      match getTasks with
      | Throw e => Throw e
      | Ok tasks =>
          match groupTasksBySource tasks with
          | Throw e => Throw e
          | Ok groupedTasks => Ok (map group_item (Object_entries groupedTasks))
          end
      end
  | Some (SourceGroupItem _ tasks) => Ok (map TaskItem tasks)
  | Some (TaskItem _) => Ok []
  end.

(** The children of all of [items], item after item. *)
Definition leaves (getTasks : Result (list MiseTask))
    (items : list TreeNode) : list TreeNode :=
  flat_map
    (fun item => match getChildren getTasks (Some item) with
                 | Ok children => children
                 | Throw _ => []
                 end)
    items.

End TaskTree.

(** ** Counting calls *)

Definition is_run (ev : Event) : bool :=
  match ev with
  | E_runTask _ _ => true
  | _ => false
  end.

Definition is_watch (ev : Event) : bool :=
  match ev with
  | E_watchTask _ _ => true
  | _ => false
  end.

Definition is_error_message (ev : Event) : bool :=
  match ev with
  | E_showErrorMessage _ => true
  | _ => false
  end.

Definition is_callback (ev : Event) : bool :=
  match ev with
  | E_onConfigChangeCallback _ => true
  | _ => false
  end.

Definition is_probe (ev : Event) : bool :=
  match ev with
  | E_execMiseCommand _ => true
  | _ => false
  end.

Definition count (p : Event -> bool) (t : list Event) : nat :=
  List.length (filter p t).

(** The same collaborators, with another run operation. *)
Definition with_runTask (f : string -> list string -> Result unit)
    (w : World) : World :=
  mkWorld (getTools w) (execAsync w) (getTaskInfo w) f
    (miseService_watchTask w) (execMiseCommand w) (isMiseExtensionEnabled w)
    (onConfigChangeCallback w) (getRootFolder w) (getMiseConfigFiles w).

(** A call of the run operation read as a call of the watch operation. *)
Definition as_watch (ev : Event) : Event :=
  match ev with
  | E_runTask taskName extra => E_watchTask taskName extra
  | _ => ev
  end.

(** ** [registerMiseCommands] *)

(** What a command handler passes to [logger.error]. *)
Record ErrorLog := mkErrorLog { log_message : string; log_error : JsError }.

(** The handler of [RUN_TASK_COMMAND]:
    [taskProvider.runTask(taskName).catch(...)]. *)
Definition RUN_TASK_COMMAND_handler (w : World) (taskName : string)
    (s : Script) : list Event * list ErrorLog * Script :=
  match runTask w taskName s with
  | (Ok _, t, s') => (t, [], s')
  | (Throw error, t, s') =>
      (t, [mkErrorLog ("Failed to run task '" ^^ taskName ^^ "':") error], s')
  end.

(** The handler of [WATCH_TASK_COMMAND]. *)
Definition WATCH_TASK_COMMAND_handler (w : World) (taskName : string)
    (s : Script) : list Event * list ErrorLog * Script :=
  match watchTask w taskName s with
  | (Ok _, t, s') => (t, [], s')
  | (Throw error, t, s') =>
      (t,
       [mkErrorLog ("Failed to run task (watch mode) '" ^^ taskName ^^ "':")
          error],
       s')
  end.

(** ** [MiseFileWatcher.dispose] *)

(** [dispose()]: the watchers it disposes of, as indices into
    [fileWatchers], in order. *)
Definition dispose (this : FileWatcher.MiseFileWatcher) : list nat :=
  seq 0 (List.length (FileWatcher.fileWatchers this)).

(** The watchers that a construction with the config files [files] sets
    up, in the order of their creation, before listeners are registered. *)
Definition expected_watchers (misePatterns idiomaticFiles : string)
    (allowedFileTaskDirs : list string) (rootFolder : string)
    (files : list MiseConfigFile) : list FileWatcher.FileSystemWatcher :=
  FileWatcher.createFileSystemWatcher rootFolder ("{" ^^ misePatterns ^^ "}")
    :: map (fun file =>
              FileWatcher.createFileSystemWatcher (file_path file) "*") files
    ++ [FileWatcher.createFileSystemWatcher rootFolder
          ("{" ^^ idiomaticFiles ^^ "}");
        FileWatcher.createFileSystemWatcher rootFolder
          (FileWatcher.task_dirs_glob allowedFileTaskDirs)].

(** A backend that lists [files] as its config files and rejects every
    watch; [which] finds watchexec and the extension is enabled. *)
Definition sample_watch_world (files : list MiseConfigFile) : World :=
  mkWorld
    (Ok [mkTool "node"])
    (fun _ => Ok (mkExec "/usr/bin/watchexec" ""))
    (fun _ => Ok None)
    (fun _ _ => Ok tt)
    (fun _ _ => Throw (Error "exit code 1"))
    (fun _ => Ok (mkExec "build" ""))
    true
    (fun _ => Ok tt)
    (Some "/ws")
    (Ok files).

(** A usage spec with an optional and a required positional argument, a
    switch and a flag with a value; and a user who answers everything. *)
Definition sample_info : MiseTaskInfo :=
  mkInfo (mkSpec [mkArg "env" false; mkArg "file" true]
            [mkFlag "--verbose" None; mkFlag "--tag" (Some "name")]).

Definition sample_answers : Script :=
  [Some "prod"; Some "a.txt"; Some "Yes"; Some "Yes"; Some "v1"].

Definition sample_tasks : list MiseTask :=
  [mkTask "build" (Some "mise.toml") "Build";
   mkTask "hello" None "";
   mkTask "test" (Some "mise.toml") "Test"].

(** ** Sample collaborators

    A backend that knows every task name with the usage spec [info] (or
    not at all), lists watchexec among its tools while [which] fails, and
    cannot list its config files; the extension is disabled. *)
Definition sample_world (info : option MiseTaskInfo) : World :=
  mkWorld
    (Ok [mkTool "node"; mkTool "watchexec"])
    (fun _ => Throw (Error "Command failed: which watchexec"))
    (fun _ => Ok info)
    (fun _ _ => Ok tt)
    (fun _ _ => Ok tt)
    (fun _ => Ok (mkExec "build" ""))
    false
    (fun _ => Ok tt)
    (Some "/ws")
    (Throw (Error "mise is not installed")).

(** * Properties *)

(** ** The task catalog *)

Section CatalogFacts.

Import Catalog.

Lemma own_set_absent key v o :
  own_get key o = None -> own_set key v o = o ++ [(key, v)].
Proof.
  induction o as [|[k v'] o IH]; simpl; [reflexivity|].
  destruct (String.eqb key k); [discriminate|].
  intros H. now rewrite IH.
Qed.

Lemma own_get_app_absent key v o :
  own_get key o = None -> own_get key (o ++ [(key, v)]) = Some v.
Proof.
  induction o as [|[k v'] o IH]; simpl.
  - now rewrite String.eqb_refl.
  - destruct (String.eqb key k); [discriminate|exact IH].
Qed.

Lemma own_get_app_other key k v o :
  key <> k -> own_get key (o ++ [(k, v)]) = own_get key o.
Proof.
  intros Hne. induction o as [|[k' v'] o IH]; simpl.
  - apply String.eqb_neq in Hne. now rewrite Hne.
  - now rewrite IH.
Qed.

Lemma own_get_set_same key v a o :
  own_get key o = Some a -> own_get key (own_set key v o) = Some v.
Proof.
  induction o as [|[k v'] o IH]; simpl; [discriminate|].
  destruct (String.eqb key k) eqn:E; simpl; rewrite E; auto.
Qed.

Lemma own_get_set_other key k v o :
  key <> k -> own_get key (own_set k v o) = own_get key o.
Proof.
  intros Hne. induction o as [|[k' v'] o IH]; simpl.
  - apply String.eqb_neq in Hne. now rewrite Hne.
  - destruct (String.eqb k k') eqn:E; simpl.
    + apply String.eqb_eq in E; subst k'.
      apply String.eqb_neq in Hne. now rewrite Hne.
    + now rewrite IH.
Qed.

Lemma keys_set_present key v a o :
  own_get key o = Some a -> map fst (own_set key v o) = map fst o.
Proof.
  induction o as [|[k v'] o IH]; simpl; [discriminate|].
  destruct (String.eqb key k) eqn:E; simpl; [reflexivity|].
  intros H. now rewrite IH.
Qed.

Lemma own_get_None_not_key key o :
  own_get key o = None -> ~ In key (map fst o).
Proof.
  induction o as [|[k v'] o IH]; simpl; [tauto|].
  destruct (String.eqb key k) eqn:E; [discriminate|].
  apply String.eqb_neq in E. intros H [Hk|Hin]; [congruence|].
  now apply IH.
Qed.

Lemma own_get_In key v o :
  NoDup (map fst o) -> In (key, v) o -> own_get key o = Some v.
Proof.
  induction o as [|[k v'] o IH]; simpl; [tauto|].
  intros Hnd [Heq|Hin].
  - inversion Heq; subst. now rewrite String.eqb_refl.
  - inversion Hnd as [|? ? Hnotin Hnd']; subst.
    destruct (String.eqb key k) eqn:E.
    + apply String.eqb_eq in E; subst. exfalso. apply Hnotin.
      change k with (fst (k, v)). now apply in_map.
    + now apply IH.
Qed.

Lemma all_grouped_set key a t o :
  own_get key o = Some a ->
  Permutation (all_grouped (own_set key (a ++ [t]) o)) (all_grouped o ++ [t]).
Proof.
  unfold all_grouped.
  induction o as [|[k v'] o IH]; simpl; [discriminate|].
  destruct (String.eqb key k) eqn:E; simpl.
  - intros H; inversion H; subst.
    rewrite <- !app_assoc. apply Permutation_app_head, Permutation_app_comm.
  - intros H. rewrite <- app_assoc. apply Permutation_app_head. now apply IH.
Qed.

Lemma all_grouped_new key t o :
  all_grouped (o ++ [(key, [t])]) = all_grouped o ++ [t].
Proof.
  unfold all_grouped. rewrite map_app, concat_app. reflexivity.
Qed.

Lemma tasks_of_snoc key done t :
  tasks_of key (done ++ [t]) =
  tasks_of key done ++ (if String.eqb (source_key t) key then [t] else []).
Proof.
  unfold tasks_of. rewrite filter_app. reflexivity.
Qed.

Lemma own_set_app_same key v v' o :
  own_get key o = None ->
  own_set key v (o ++ [(key, v')]) = o ++ [(key, v)].
Proof.
  induction o as [|[k v0] o IH]; simpl.
  - now rewrite String.eqb_refl.
  - destruct (String.eqb key k); [discriminate|].
    intros H. now rewrite IH.
Qed.

(** What one turn of the fold does when the key is not an inherited name. *)
Lemma reducer_safe groups task :
  inherited (source_key task) = false ->
  reducer groups task =
  Ok (match own_get (source_key task) groups with
      | Some a => own_set (source_key task) (a ++ [task]) groups
      | None => groups ++ [(source_key task, [task])]
      end).
Proof.
  intros Hsafe. unfold reducer, js_get.
  destruct (own_get (source_key task) groups) as [a|] eqn:E; simpl.
  - now rewrite E.
  - rewrite Hsafe. simpl.
    rewrite (own_set_absent _ _ _ E), (own_get_app_absent _ _ _ E).
    simpl. now rewrite (own_set_app_same _ _ _ _ E).
Qed.

Lemma grouped_step groups done task :
  inherited (source_key task) = false ->
  grouped groups done ->
  exists groups',
    reducer groups task = Ok groups' /\ grouped groups' (done ++ [task]).
Proof.
  intros Hsafe (Hnd & Hget & Hperm).
  rewrite (reducer_safe _ _ Hsafe). eexists; split; [reflexivity|].
  destruct (own_get (source_key task) groups) as [a|] eqn:E.
  - repeat split.
    + now rewrite (keys_set_present _ _ _ _ E).
    + intros key. rewrite tasks_of_snoc.
      destruct (String.eqb (source_key task) key) eqn:Ek.
      * apply String.eqb_eq in Ek; subst key. right. split.
        -- rewrite (own_get_set_same _ _ _ _ E).
           destruct (Hget (source_key task)) as [[H _]|[H _]]; congruence.
        -- intros H. now apply app_eq_nil in H.
      * apply String.eqb_neq in Ek. rewrite app_nil_r.
        rewrite own_get_set_other by congruence. apply Hget.
    + rewrite (all_grouped_set _ _ _ _ E). now apply Permutation_app_tail.
  - repeat split.
    + rewrite map_app. simpl.
      apply NoDup_app; [exact Hnd|repeat constructor; simpl; tauto|].
      intros k Hin [Hk|[]]. subst k.
      exact (own_get_None_not_key _ _ E Hin).
    + intros key. rewrite tasks_of_snoc.
      destruct (String.eqb (source_key task) key) eqn:Ek.
      * apply String.eqb_eq in Ek; subst key. right. split.
        -- rewrite (own_get_app_absent _ _ _ E).
           destruct (Hget (source_key task)) as [[_ H]|[H _]];
             [now rewrite H|congruence].
        -- intros H. now apply app_eq_nil in H.
      * apply String.eqb_neq in Ek. rewrite app_nil_r.
        rewrite own_get_app_other by congruence. apply Hget.
    + rewrite all_grouped_new. now apply Permutation_app_tail.
Qed.

Lemma grouped_reduce rest : forall groups done,
  Forall (fun t => inherited (source_key t) = false) rest ->
  grouped groups done ->
  exists groups',
    reduce groups rest = Ok groups' /\ grouped groups' (done ++ rest).
Proof.
  induction rest as [|task rest IH]; intros groups done Hsafe Hinv; simpl.
  - exists groups. now rewrite app_nil_r.
  - inversion Hsafe as [|? ? Ht Hrest]; subst.
    destruct (grouped_step _ _ _ Ht Hinv) as (g1 & -> & Hinv1).
    destruct (IH _ _ Hrest Hinv1) as (g2 & Hred & Hinv2).
    exists g2. split; [exact Hred|].
    now rewrite <- app_assoc in Hinv2.
Qed.

(** On task lists none of whose group keys is a name inherited from
    [Object.prototype], the fold returns; the groups have distinct keys,
    the group under a key holds exactly the tasks with that key, in input
    order, every task is in the group of its key, and all groups together
    are a rearrangement of the input. *)
Theorem groupTasksBySource_partition (tasks : list MiseTask) :
  Forall (fun t => inherited (source_key t) = false) tasks ->
  exists groups,
    groupTasksBySource tasks = Ok groups
    /\ NoDup (map fst groups)
    /\ (forall key ts, In (key, ts) groups ->
          ts = tasks_of key tasks /\ ts <> [])
    /\ (forall t, In t tasks ->
          exists ts, In (source_key t, ts) groups /\ In t ts)
    /\ Permutation (all_grouped groups) tasks.
Proof.
  intros Hsafe.
  assert (Hinit : grouped [] []).
  { repeat split; [constructor| |constructor]. intros key. now left. }
  destruct (grouped_reduce tasks [] [] Hsafe Hinit)
    as (groups & Hred & Hnd & Hget & Hperm).
  simpl in *. exists groups. repeat split; auto.
  - pose proof (own_get_In _ _ _ Hnd H) as Hk.
    destruct (Hget key) as [[Hn _]|[Hs _]]; congruence.
  - pose proof (own_get_In _ _ _ Hnd H) as Hk.
    destruct (Hget key) as [[Hn _]|[Hs Hne]]; congruence.
  - intros t Hin.
    assert (Hmem : In t (tasks_of (source_key t) tasks)).
    { unfold tasks_of. apply filter_In. split; [exact Hin|].
      apply String.eqb_refl. }
    destruct (Hget (source_key t)) as [[_ He]|[Hs _]].
    + rewrite He in Hmem. destruct Hmem.
    + exists (tasks_of (source_key t) tasks). split; [|exact Hmem].
      clear - Hs. induction groups as [|[k v] o IH]; simpl in *;
        [discriminate|].
      destruct (String.eqb (source_key t) k) eqn:E.
      * apply String.eqb_eq in E. left. congruence.
      * right. now apply IH.
Qed.

End CatalogFacts.

(** ** The monad *)

Section MonadFacts.

Context {A B : Type}.

Lemma bind_Ok (m : M A) (k : A -> M B) s a t1 s1 :
  m s = (Ok a, t1, s1) ->
  bind m k s =
  (result_of (k a s1), t1 ++ trace_of (k a s1), script_of (k a s1)).
Proof.
  intros H. unfold bind. rewrite H.
  now destruct (k a s1) as [[r t2] s2].
Qed.

Lemma bind_Throw (m : M A) (k : A -> M B) s e t1 s1 :
  m s = (Throw e, t1, s1) -> bind m k s = (Throw e, t1, s1).
Proof.
  intros H. unfold bind. now rewrite H.
Qed.

End MonadFacts.

Lemma bind_ext {A B} (m : M A) (k k' : A -> M B) s :
  (forall a s', k a s' = k' a s') -> bind m k s = bind m k' s.
Proof.
  intros H. unfold bind.
  destruct (m s) as [[[a|e] t1] s1]; [|reflexivity]. now rewrite H.
Qed.

Lemma bind_assoc {A B C} (m : M A) (k : A -> M B) (k' : B -> M C) s :
  bind (bind m k) k' s = bind m (fun a => bind (k a) k') s.
Proof.
  unfold bind.
  destruct (m s) as [[[a|e] t1] s1]; [|reflexivity].
  destruct (k a s1) as [[[b|e] t2] s2]; [|reflexivity].
  destruct (k' b s2) as [[r t3] s3]. now rewrite app_assoc.
Qed.

Lemma for_of_app {X} (body : X -> list string -> M (list string)) xs ys :
  forall cmdArgs s,
    for_of (xs ++ ys) body cmdArgs s =
    bind (for_of xs body cmdArgs) (for_of ys body) s.
Proof.
  induction xs as [|x xs IH]; intros cmdArgs s; simpl.
  - unfold bind, ret. now destruct (for_of ys body cmdArgs s) as [[r t] s'].
  - rewrite bind_assoc. apply bind_ext. intros a s'. apply IH.
Qed.

(** ** The argument collector *)

Section CollectorFacts.

Lemma prompt_arg_Ok arg s :
  exists v s',
    prompt_arg arg s =
    (Ok v, [E_showInputBox ("Enter value for " ^^ arg_name arg) (arg_name arg)],
     s').
Proof.
  unfold prompt_arg, showInputBox.
  destruct (submit (validateInput arg) s) as [v s']. now exists v, s'.
Qed.

(** The loops of the collector only prompt. *)
Lemma collect_arg_prompts arg cmdArgs s :
  Forall (fun ev => is_prompt ev = true)
    (trace_of (collect_arg arg cmdArgs s)).
Proof.
  unfold collect_arg.
  destruct (prompt_arg_Ok arg s) as (v & s' & H).
  rewrite (bind_Ok _ _ _ _ _ _ H). unfold trace_of at 1. simpl.
  constructor; [reflexivity|].
  destruct (truthy v); [constructor|].
  destruct (arg_required arg); constructor.
Qed.

Lemma showQuickPick_Ok placeHolder s :
  exists v s',
    showQuickPick placeHolder s = (Ok v, [E_showQuickPick placeHolder], s').
Proof.
  destruct s as [|a rest]; simpl; eauto.
Qed.

Lemma showInputBox_Ok prompt placeHolder validate s :
  exists v s',
    showInputBox prompt placeHolder validate s =
    (Ok v, [E_showInputBox prompt placeHolder], s').
Proof.
  unfold showInputBox. destruct (submit validate s) as [v s']. eauto.
Qed.

(** One flag: the step returns, having only prompted. *)
Lemma collect_flag_Ok flag cmdArgs s :
  exists out t s',
    collect_flag flag cmdArgs s = (Ok out, t, s')
    /\ Forall (fun ev => is_prompt ev = true) t.
Proof.
  unfold collect_flag.
  destruct (truthy (flag_arg flag)).
  - destruct (showQuickPick_Ok
                ("Do you want to provide " ^^ flag_name flag ^^ "?") s)
      as (v & s1 & H1).
    rewrite (bind_Ok _ _ _ _ _ _ H1).
    destruct (is_Yes v).
    + destruct (showInputBox_Ok ("Enter value for " ^^ flag_name flag)
                  (value_of (flag_arg flag)) no_validation s1)
        as (v2 & s2 & H2).
      rewrite (bind_Ok _ _ _ _ _ _ H2).
      destruct (truthy v2); simpl; do 3 eexists; split;
        try reflexivity; repeat constructor.
    + simpl. do 3 eexists; split; [reflexivity|repeat constructor].
  - destruct (showQuickPick_Ok ("Enable " ^^ flag_name flag ^^ "?") s)
      as (v & s1 & H1).
    rewrite (bind_Ok _ _ _ _ _ _ H1).
    destruct (is_Yes v); simpl; do 3 eexists; split;
      try reflexivity; repeat constructor.
Qed.

Lemma collect_flags_Ok l : forall cmdArgs s,
  exists out t s',
    collect_flags l cmdArgs s = (Ok out, t, s')
    /\ Forall (fun ev => is_prompt ev = true) t.
Proof.
  induction l as [|flag l IH]; intros cmdArgs s; simpl.
  - do 3 eexists. split; [reflexivity|constructor].
  - destruct (collect_flag_Ok flag cmdArgs s) as (o1 & t1 & s1 & H1 & P1).
    destruct (IH o1 s1) as (o2 & t2 & s2 & H2 & P2).
    unfold collect_flags in *. simpl.
    rewrite (bind_Ok _ _ _ _ _ _ H1), H2. simpl.
    do 3 eexists. split; [reflexivity|]. apply Forall_app. now split.
Qed.

Lemma collect_args_prompts l : forall cmdArgs s,
  Forall (fun ev => is_prompt ev = true)
    (trace_of (collect_args l cmdArgs s)).
Proof.
  induction l as [|arg l IH]; intros cmdArgs s; simpl.
  - constructor.
  - unfold collect_args in *. simpl.
    pose proof (collect_arg_prompts arg cmdArgs s) as P1.
    destruct (collect_arg arg cmdArgs s) as [[[c|e] t1] s1] eqn:E.
    + rewrite (bind_Ok _ _ _ _ _ _ E). unfold trace_of at 1. simpl.
      apply Forall_app. split; [exact P1|apply IH].
    + rewrite (bind_Throw _ _ _ _ _ _ E). exact P1.
Qed.

Lemma prompt_not_invocation t :
  Forall (fun ev => is_prompt ev = true) t ->
  Forall (fun ev => is_invocation ev = false) t.
Proof.
  apply Forall_impl. now intros [].
Qed.

End CollectorFacts.

(** ** Running and watching a task *)

Section RunnerFacts.

Variable w : World.

Lemma needs_arguments_args info pre a post :
  args (usageSpec info) = pre ++ a :: post -> needs_arguments info = true.
Proof.
  intros H. unfold needs_arguments. rewrite H, length_app. simpl.
  apply orb_true_iff. left. apply Nat.ltb_lt. lia.
Qed.

Lemma watchTask_unfold taskName s :
  watchTask w taskName s =
  if watchexec_missing w then MissingWatchPrerequisite s
  else
    (result_of (watchTask_try w taskName s),
     [E_getTools; E_execAsync "which watchexec"]
       ++ trace_of (watchTask_try w taskName s),
     script_of (watchTask_try w taskName s)).
Proof.
  unfold watchTask, allSettled2, bind, watchexec_missing. simpl.
  destruct (negb _ && _); [reflexivity|].
  now destruct (watchTask_try w taskName s) as [[r t] s'].
Qed.

(** The collector up to a required argument that gets no value. *)
Lemma collect_args_missing pre a post s toks t s1 v tp s2 :
  arg_required a = true ->
  collect_args pre [] s = (Ok toks, t, s1) ->
  prompt_arg a s1 = (Ok v, tp, s2) ->
  truthy v = false ->
  collect_args (pre ++ a :: post) [] s =
  (Throw (MissingRequired (arg_name a)), t ++ tp, s2).
Proof.
  intros Hreq Hpre Hask Hv. unfold collect_args in *.
  rewrite for_of_app, (bind_Ok _ _ _ _ _ _ Hpre). simpl.
  assert (Ha : collect_arg a toks s1 =
               (Throw (MissingRequired (arg_name a)), tp, s2)).
  { unfold collect_arg. rewrite (bind_Ok _ _ _ _ _ _ Hask), Hv, Hreq.
    simpl. now rewrite app_nil_r. }
  now rewrite (bind_Throw _ _ _ _ _ _ Ha).
Qed.

Lemma collectArgumentValues_missing info pre a post s toks t s1 v tp s2 :
  args (usageSpec info) = pre ++ a :: post ->
  arg_required a = true ->
  collect_args pre [] s = (Ok toks, t, s1) ->
  prompt_arg a s1 = (Ok v, tp, s2) ->
  truthy v = false ->
  collectArgumentValues info s =
  (Throw (MissingRequired (arg_name a)),
   E_collectArgumentValues :: t ++ tp, s2).
Proof.
  intros Hargs Hreq Hpre Hask Hv. unfold collectArgumentValues.
  unfold bind at 1, emit. rewrite Hargs.
  rewrite (bind_Throw _ _ _ _ _ _
             (collect_args_missing _ _ post _ _ _ _ _ _ _ Hreq Hpre Hask Hv)).
  reflexivity.
Qed.

(** The collector only prompts, whatever it ends with. *)
Lemma collectArgumentValues_no_invocation info s :
  Forall (fun ev => is_invocation ev = false)
    (trace_of (collectArgumentValues info s)).
Proof.
  unfold collectArgumentValues, bind at 1, emit.
  pose proof (collect_args_prompts (args (usageSpec info)) [] s) as P1.
  destruct (collect_args (args (usageSpec info)) [] s)
    as [[[c|e] t1] s1] eqn:E.
  - rewrite (bind_Ok _ _ _ _ _ _ E).
    destruct (collect_flags_Ok (flags (usageSpec info)) c s1)
      as (o & t2 & s2 & H2 & P2).
    rewrite H2. simpl. constructor; [reflexivity|].
    apply Forall_app. split; now apply prompt_not_invocation.
  - rewrite (bind_Throw _ _ _ _ _ _ E). simpl.
    constructor; [reflexivity|]. now apply prompt_not_invocation.
Qed.

(** C3. A required positional argument whose prompt ends with no value
    (empty or dismissed), after the arguments before it were collected:
    the collector throws the error naming that argument; [runTask] shows
    it and ends, and neither [runTask] nor [watchTask] calls the backend's
    run or watch operation, so no token collected before is passed on. *)
Theorem required_argument_aborts
    taskName info pre a post s toks t s1 v tp s2 :
  getTaskInfo w taskName = Ok (Some info) ->
  args (usageSpec info) = pre ++ a :: post ->
  arg_required a = true ->
  collect_args pre [] s = (Ok toks, t, s1) ->
  prompt_arg a s1 = (Ok v, tp, s2) ->
  truthy v = false ->
  collectArgumentValues info s =
    (Throw (MissingRequired (arg_name a)),
     E_collectArgumentValues :: t ++ tp, s2)
  /\ runTask w taskName s =
       (Ok tt,
        E_getTaskInfo taskName :: (E_collectArgumentValues :: t ++ tp)
          ++ [E_showErrorMessage
                (failed_to_run taskName (MissingRequired (arg_name a)))],
        s2)
  /\ Forall (fun ev => is_invocation ev = false)
       (trace_of (runTask w taskName s))
  /\ result_of (watchTask w taskName s) = Ok tt
  /\ Forall (fun ev => is_invocation ev = false)
       (trace_of (watchTask w taskName s)).
Proof.
  intros Hinfo Hargs Hreq Hpre Hask Hv.
  pose proof (collectArgumentValues_missing _ _ _ _ _ _ _ _ _ _ _
                Hargs Hreq Hpre Hask Hv) as Hcol.
  pose proof (collectArgumentValues_no_invocation info s) as Hno.
  rewrite Hcol in Hno. simpl in Hno.
  assert (Hrun : runTask w taskName s =
    (Ok tt,
     E_getTaskInfo taskName :: (E_collectArgumentValues :: t ++ tp)
       ++ [E_showErrorMessage
             (failed_to_run taskName (MissingRequired (arg_name a)))],
     s2)).
  { unfold runTask, try_catch, bind at 1, await at 1. rewrite Hinfo.
    rewrite (needs_arguments_args _ _ _ _ Hargs).
    rewrite (bind_Throw _ _ _ _ _ _ Hcol). reflexivity. }
  split; [exact Hcol|]. split; [exact Hrun|]. split.
  - rewrite Hrun. simpl. constructor; [reflexivity|].
    constructor; [reflexivity|].
    inversion Hno; subst. apply Forall_app. split; [assumption|].
    now repeat constructor.
  - rewrite watchTask_unfold.
    assert (Htry : watchTask_try w taskName s =
      (Ok tt,
       E_getTaskInfo taskName :: (E_collectArgumentValues :: t ++ tp)
         ++ [E_showErrorMessage
               (failed_to_run taskName (MissingRequired (arg_name a)))],
       s2)).
    { unfold watchTask_try, try_catch, bind at 1, await at 1. rewrite Hinfo.
      rewrite (needs_arguments_args _ _ _ _ Hargs).
      rewrite (bind_Throw _ _ _ _ _ _ Hcol). reflexivity. }
    destruct (watchexec_missing w);
      [split; [reflexivity|now repeat constructor]|].
    rewrite Htry. simpl. split; [reflexivity|].
    do 4 (constructor; [reflexivity|]).
    inversion Hno; subst. apply Forall_app. split; [assumption|].
    now repeat constructor.
Qed.

Lemma watchexec_missing_spec :
  watchexec_missing w = true <->
  ~ listing_reports (getTools w)
  /\ ~ probe_reports (execAsync w "which watchexec").
Proof.
  unfold watchexec_missing, listing_reports, probe_reports.
  rewrite andb_true_iff, negb_true_iff. unfold truthy_str.
  rewrite negb_false_iff, String.eqb_eq. split.
  - intros [Hout Hfind]. split.
    + intros (tools & tool & Hr & Hin & Hname). rewrite Hr in Hfind.
      simpl in Hfind. destruct (find is_watchexec tools) eqn:E;
        [discriminate|].
      pose proof (find_none _ _ E _ Hin) as Hf. unfold is_watchexec in Hf.
      rewrite Hname in Hf. discriminate.
    + intros (value & Hr & Hne). rewrite Hr in Hout. now apply Hne.
  - intros [Hl Hp]. split.
    + destruct (execAsync w "which watchexec") as [value|e]; simpl;
        [|reflexivity].
      destruct (String.eqb (stdout value) "") eqn:E;
        [now apply String.eqb_eq|].
      exfalso. apply Hp. exists value. split; [reflexivity|].
      now apply String.eqb_neq.
    + destruct (getTools w) as [tools|e]; simpl; [|reflexivity].
      destruct (find is_watchexec tools) as [tool|] eqn:E; [|reflexivity].
      exfalso. apply Hl. apply find_some in E. destruct E as [Hin Hn].
      exists tools, tool. repeat split; [exact Hin|].
      now apply String.eqb_eq.
Qed.

Lemma try_never_throws (m : M unit) (message : JsError -> string) s :
  result_of
    (try_catch m (fun error => emit (E_showErrorMessage (message error))) s)
  = Ok tt.
Proof.
  unfold try_catch. destruct (m s) as [[[[]|e] t] s']; reflexivity.
Qed.

Lemma runTask_never_throws taskName s :
  result_of (runTask w taskName s) = Ok tt.
Proof. apply try_never_throws. Qed.

Lemma watchTask_never_throws taskName s :
  result_of (watchTask w taskName s) = Ok tt.
Proof.
  rewrite watchTask_unfold.
  destruct (watchexec_missing w); [reflexivity|]. apply try_never_throws.
Qed.

(** The [try] statement of [watchTask], path by path. *)
Lemma watchTask_try_eq taskName s :
  watchTask_try w taskName s =
  match getTaskInfo w taskName with
  | Throw e =>
      (Ok tt,
       [E_getTaskInfo taskName;
        E_showErrorMessage (failed_to_run taskName e)], s)
  | Ok None =>
      (Ok tt,
       [E_getTaskInfo taskName;
        E_showErrorMessage (failed_to_run taskName (TaskNotFound taskName))],
       s)
  | Ok (Some info) =>
      if needs_arguments info then
        match collectArgumentValues info s with
        | (Ok out, t, s1) =>
            (Ok tt,
             E_getTaskInfo taskName
               :: t ++ E_watchTask taskName out
                    :: report taskName (miseService_watchTask w taskName out),
             s1)
        | (Throw e, t, s1) =>
            (Ok tt,
             E_getTaskInfo taskName
               :: t ++ [E_showErrorMessage (failed_to_run taskName e)],
             s1)
        end
      else
        (Ok tt,
         [E_getTaskInfo taskName; E_watchTask taskName []]
           ++ report taskName (miseService_watchTask w taskName []),
         s)
  end.
Proof.
  unfold watchTask_try, try_catch, bind at 1, await at 1.
  destruct (getTaskInfo w taskName) as [[info|]|e]; try reflexivity.
  destruct (needs_arguments info).
  - destruct (collectArgumentValues info s) as [[[out|e] t] s1] eqn:Hc.
    + rewrite (bind_Ok _ _ _ _ _ _ Hc). unfold await. simpl.
      destruct (miseService_watchTask w taskName out) as [[]|e]; simpl;
        rewrite <- ?app_assoc; reflexivity.
    + rewrite (bind_Throw _ _ _ _ _ _ Hc). reflexivity.
  - unfold await.
    now destruct (miseService_watchTask w taskName []) as [[]|e].
Qed.

Lemma watchTask_try_starts taskName s :
  exists t, trace_of (watchTask_try w taskName s) = E_getTaskInfo taskName :: t.
Proof.
  unfold watchTask_try, try_catch.
  match goal with
  | |- context [match ?b s with _ => _ end] =>
      assert (H : exists t, trace_of (b s) = E_getTaskInfo taskName :: t);
      [|destruct (b s) as [[[u|e] t1] s1]]
  end.
  - unfold bind at 1, await at 1.
    destruct (getTaskInfo w taskName) as [taskInfo|e]; [|now eexists].
    match goal with
    | |- context [match ?k with _ => _ end] =>
        destruct k as [[r t2] s2]
    end.
    now eexists.
  - exact H.
  - destruct H as [t H]. unfold trace_of in *. simpl in *. subst t1.
    now eexists.
Qed.

(** C2. [watchTask] ends with the install hint, having called nothing but
    the two probes, exactly when neither the tool listing nor the [which]
    probe reports watchexec; when one of them does, it goes on: it looks
    the task up, collects the arguments the task needs and calls the
    backend's watch operation with them, showing an error only where the
    lookup, the collection or the watch operation fails. It never throws,
    and a rejected probe decides as an empty listing, respectively an
    empty output, would. *)
Theorem watch_prerequisite_guard taskName s :
  (watchTask w taskName s = MissingWatchPrerequisite s <->
   ~ listing_reports (getTools w)
   /\ ~ probe_reports (execAsync w "which watchexec"))
  /\ (listing_reports (getTools w)
      \/ probe_reports (execAsync w "which watchexec") ->
      proceeds taskName (watchTask w taskName s)
      /\ watchTask w taskName s =
         match getTaskInfo w taskName with
         | Throw e =>
             (Ok tt,
              [E_getTools; E_execAsync "which watchexec";
               E_getTaskInfo taskName;
               E_showErrorMessage (failed_to_run taskName e)], s)
         | Ok None =>
             (Ok tt,
              [E_getTools; E_execAsync "which watchexec";
               E_getTaskInfo taskName;
               E_showErrorMessage
                 (failed_to_run taskName (TaskNotFound taskName))], s)
         | Ok (Some info) =>
             if needs_arguments info then
               match collectArgumentValues info s with
               | (Ok out, t, s1) =>
                   (Ok tt,
                    E_getTools :: E_execAsync "which watchexec"
                      :: E_getTaskInfo taskName
                      :: t ++ E_watchTask taskName out
                           :: report taskName
                                (miseService_watchTask w taskName out),
                    s1)
               | (Throw e, t, s1) =>
                   (Ok tt,
                    E_getTools :: E_execAsync "which watchexec"
                      :: E_getTaskInfo taskName
                      :: t ++ [E_showErrorMessage (failed_to_run taskName e)],
                    s1)
               end
             else
               (Ok tt,
                [E_getTools; E_execAsync "which watchexec";
                 E_getTaskInfo taskName; E_watchTask taskName []]
                  ++ report taskName (miseService_watchTask w taskName []),
                s)
         end)
  /\ result_of (watchTask w taskName s) = Ok tt
  /\ (forall e, getTools w = Throw e ->
        watchTask w taskName s = watchTask (with_getTools (Ok []) w) taskName s)
  /\ (forall e, execAsync w "which watchexec" = Throw e ->
        watchTask w taskName s =
        watchTask (with_execAsync (fun _ => Ok (mkExec "" "")) w) taskName s).
Proof.
  assert (Hgo : watchexec_missing w = false ->
                proceeds taskName (watchTask w taskName s)).
  { intros Hm. unfold proceeds. rewrite watchTask_unfold, Hm.
    destruct (watchTask_try_starts taskName s) as [t Ht].
    exists t. unfold trace_of at 1. simpl. now rewrite Ht. }
  split; [|split; [|split; [|split]]].
  - rewrite <- watchexec_missing_spec. split.
    + intros H. destruct (watchexec_missing w) eqn:Hm; [reflexivity|].
      destruct (Hgo eq_refl) as [t Ht]. rewrite H in Ht. discriminate.
    + intros Hm. now rewrite watchTask_unfold, Hm.
  - intros H.
    assert (Hm : watchexec_missing w = false).
    { destruct (watchexec_missing w) eqn:Hm; [|reflexivity].
      apply watchexec_missing_spec in Hm. tauto. }
    split; [now apply Hgo|].
    rewrite watchTask_unfold, Hm, watchTask_try_eq.
    destruct (getTaskInfo w taskName) as [[info|]|e]; try reflexivity.
    destruct (needs_arguments info); [|reflexivity].
    now destruct (collectArgumentValues info s) as [[[out|e] t] s1].
  - apply watchTask_never_throws.
  - intros e He. unfold watchTask. simpl. now rewrite He.
  - intros e He. unfold watchTask. simpl. now rewrite He.
Qed.

Lemma needs_arguments_trivial info :
  args (usageSpec info) = [] -> flags (usageSpec info) = [] ->
  needs_arguments info = false.
Proof.
  intros Ha Hf. unfold needs_arguments. now rewrite Ha, Hf.
Qed.

(** C4. A task whose usage spec has no positional argument and no flag:
    [runTask] and, once the watch prerequisite is met, [watchTask] call the
    backend with no extra argument right after the lookup; the collector is
    not entered and the user is not prompted. *)
Theorem trivial_spec_skips_collector taskName info s :
  getTaskInfo w taskName = Ok (Some info) ->
  args (usageSpec info) = [] ->
  flags (usageSpec info) = [] ->
  runTask w taskName s =
    (Ok tt,
     [E_getTaskInfo taskName; E_runTask taskName []]
       ++ report taskName (miseService_runTask w taskName []),
     s)
  /\ (watchexec_missing w = false ->
      watchTask w taskName s =
        (Ok tt,
         [E_getTools; E_execAsync "which watchexec";
          E_getTaskInfo taskName; E_watchTask taskName []]
           ++ report taskName (miseService_watchTask w taskName []),
         s))
  /\ ~ In E_collectArgumentValues (trace_of (runTask w taskName s))
  /\ ~ In E_collectArgumentValues (trace_of (watchTask w taskName s)).
Proof.
  intros Hinfo Ha Hf.
  pose proof (needs_arguments_trivial _ Ha Hf) as Hn.
  assert (Hrun : runTask w taskName s =
    (Ok tt,
     [E_getTaskInfo taskName; E_runTask taskName []]
       ++ report taskName (miseService_runTask w taskName []),
     s)).
  { unfold runTask, try_catch, bind, await. rewrite Hinfo, Hn.
    now destruct (miseService_runTask w taskName []) as [[]|e]. }
  assert (Htry : watchTask_try w taskName s =
    (Ok tt,
     [E_getTaskInfo taskName; E_watchTask taskName []]
       ++ report taskName (miseService_watchTask w taskName []),
     s)).
  { unfold watchTask_try, try_catch, bind, await. rewrite Hinfo, Hn.
    now destruct (miseService_watchTask w taskName []) as [[]|e]. }
  assert (Hrep : forall r, ~ In E_collectArgumentValues (report taskName r)).
  { intros [u|e] H; simpl in H; [exact H|].
    destruct H as [H|[]]. discriminate. }
  split; [exact Hrun|]. split; [|split].
  - intros Hm. now rewrite watchTask_unfold, Hm, Htry.
  - rewrite Hrun. simpl. intros [H|[H|H]]; try discriminate.
    exact (Hrep _ H).
  - rewrite watchTask_unfold.
    destruct (watchexec_missing w).
    + simpl. intros [H|[H|[H|[]]]]; discriminate.
    + rewrite Htry. simpl. intros [H|[H|[H|[H|H]]]]; try discriminate.
      exact (Hrep _ H).
Qed.

(** C5. When the lookup of the task returns nothing, [runTask] shows the
    error naming the task and returns without calling the backend's run
    operation; and whatever happens inside, [runTask] returns and does not
    throw. *)
Theorem task_not_found_is_reported taskName s :
  getTaskInfo w taskName = Ok None ->
  runTask w taskName s =
    (Ok tt,
     [E_getTaskInfo taskName;
      E_showErrorMessage (failed_to_run taskName (TaskNotFound taskName))],
     s)
  /\ (forall name s', result_of (runTask w name s') = Ok tt).
Proof.
  intros Hinfo. split.
  - unfold runTask, try_catch, bind, await. now rewrite Hinfo.
  - intros name s'. apply runTask_never_throws.
Qed.

End RunnerFacts.

(** ** Flags *)

Section FlagFacts.

Variable flag : FlagArg.
Variable cmdArgs : list string.

Lemma is_Yes_false answer : answer <> Some "Yes" -> is_Yes answer = false.
Proof.
  destruct answer as [a|]; simpl; [|reflexivity].
  intros H. apply String.eqb_neq. congruence.
Qed.

(** The collector on a spec made of the single flag [flag]. *)
Lemma collect_single_flag s :
  collectArgumentValues (mkInfo (mkSpec [] [flag])) s =
  (result_of (collect_flag flag [] s),
   E_collectArgumentValues :: trace_of (collect_flag flag [] s),
   script_of (collect_flag flag [] s)).
Proof.
  unfold collectArgumentValues, collect_args, collect_flags. simpl.
  unfold bind, emit, ret. simpl.
  destruct (collect_flag flag [] s) as [[[c|e] t] s']; simpl;
    [|reflexivity].
  now rewrite app_nil_r.
Qed.

(** C6, as the code has it. A flag whose [arg] is present and not the
    empty string: answered "Yes" and then given a non-empty value, the
    collector appends the flag name and the value, next to each other;
    when the question is answered otherwise or dismissed, or the value is
    empty or dismissed, it appends nothing. Alone in a spec, the flag
    yields [name; value], respectively no token. *)
Theorem valued_flag_tokens (placeholder : string) :
  flag_arg flag = Some placeholder ->
  placeholder <> "" ->
  (forall v rest,
      v <> "" ->
      collect_flag flag cmdArgs (Some "Yes" :: Some v :: rest) =
        (Ok (cmdArgs ++ [flag_name flag; v]),
         [E_showQuickPick ("Do you want to provide " ^^ flag_name flag ^^ "?");
          E_showInputBox ("Enter value for " ^^ flag_name flag) placeholder],
         rest)
      /\ result_of (collectArgumentValues (mkInfo (mkSpec [] [flag]))
                      (Some "Yes" :: Some v :: rest))
         = Ok [flag_name flag; v])
  /\ (forall answer rest,
        answer <> Some "Yes" ->
        collect_flag flag cmdArgs (answer :: rest) =
          (Ok cmdArgs,
           [E_showQuickPick
              ("Do you want to provide " ^^ flag_name flag ^^ "?")],
           rest)
        /\ result_of (collectArgumentValues (mkInfo (mkSpec [] [flag]))
                        (answer :: rest))
           = Ok [])
  /\ (forall v rest,
        truthy v = false ->
        collect_flag flag cmdArgs (Some "Yes" :: v :: rest) =
          (Ok cmdArgs,
           [E_showQuickPick
              ("Do you want to provide " ^^ flag_name flag ^^ "?");
            E_showInputBox ("Enter value for " ^^ flag_name flag) placeholder],
           rest)).
Proof.
  intros Harg Hne.
  assert (Ht : truthy (flag_arg flag) = true).
  { rewrite Harg. simpl. unfold truthy_str.
    apply negb_true_iff. now apply String.eqb_neq. }
  assert (Hyes : forall acc v rest,
    v <> "" ->
    collect_flag flag acc (Some "Yes" :: Some v :: rest) =
      (Ok (acc ++ [flag_name flag; v]),
       [E_showQuickPick ("Do you want to provide " ^^ flag_name flag ^^ "?");
        E_showInputBox ("Enter value for " ^^ flag_name flag) placeholder],
       rest)).
  { intros acc v rest Hv. unfold collect_flag. rewrite Ht, Harg.
    unfold bind, showQuickPick, showInputBox. simpl.
    assert (Htv : truthy_str v = true).
    { unfold truthy_str. apply negb_true_iff. now apply String.eqb_neq. }
    now rewrite Htv. }
  assert (Hno : forall acc answer rest,
    answer <> Some "Yes" ->
    collect_flag flag acc (answer :: rest) =
      (Ok acc,
       [E_showQuickPick ("Do you want to provide " ^^ flag_name flag ^^ "?")],
       rest)).
  { intros acc answer rest Ha. unfold collect_flag. rewrite Ht.
    unfold bind, showQuickPick. now rewrite (is_Yes_false _ Ha). }
  split; [|split].
  - intros v rest Hv. split; [now apply Hyes|].
    now rewrite collect_single_flag, (Hyes [] v rest Hv).
  - intros answer rest Ha. split; [now apply Hno|].
    now rewrite collect_single_flag, (Hno [] answer rest Ha).
  - intros v rest Hv. unfold collect_flag. rewrite Ht, Harg.
    unfold bind, showQuickPick, showInputBox. simpl.
    destruct v as [v|]; simpl in *; now rewrite ?Hv.
Qed.

(** C7. A flag without [arg]: answered "Yes", the collector appends the
    flag name as one token; answered "No", it appends nothing. Alone in a
    spec, the flag yields [name], respectively no token. *)
Theorem boolean_flag_tokens :
  flag_arg flag = None ->
  (forall rest,
      collect_flag flag cmdArgs (Some "Yes" :: rest) =
        (Ok (cmdArgs ++ [flag_name flag]),
         [E_showQuickPick ("Enable " ^^ flag_name flag ^^ "?")], rest)
      /\ result_of (collectArgumentValues (mkInfo (mkSpec [] [flag]))
                      (Some "Yes" :: rest))
         = Ok [flag_name flag])
  /\ (forall rest,
        collect_flag flag cmdArgs (Some "No" :: rest) =
          (Ok cmdArgs,
           [E_showQuickPick ("Enable " ^^ flag_name flag ^^ "?")], rest)
        /\ result_of (collectArgumentValues (mkInfo (mkSpec [] [flag]))
                        (Some "No" :: rest))
           = Ok []).
Proof.
  intros Harg.
  assert (H : forall acc answer rest,
    collect_flag flag acc (answer :: rest) =
      (Ok (if is_Yes answer then acc ++ [flag_name flag] else acc),
       [E_showQuickPick ("Enable " ^^ flag_name flag ^^ "?")], rest)).
  { intros acc answer rest. unfold collect_flag. rewrite Harg. simpl.
    unfold bind, showQuickPick. now destruct (is_Yes answer). }
  split; intros rest; (split; [now rewrite H|]);
    now rewrite collect_single_flag, H.
Qed.

(** C9. Whatever the kind of the flag: when its yes/no question is
    dismissed, or answered with anything but "Yes", the collector appends
    nothing for it, does not ask for a value, and goes on with the flags
    that follow; the loop over the flags always returns. *)
Theorem flag_prompt_declined_is_skipped (answer : option string) :
  answer <> Some "Yes" ->
  (forall rest,
      collect_flag flag cmdArgs (answer :: rest) =
        (Ok cmdArgs, [E_showQuickPick (flag_question flag)], rest))
  /\ collect_flag flag cmdArgs [] =
       (Ok cmdArgs, [E_showQuickPick (flag_question flag)], [])
  /\ (forall more rest,
        collect_flags (flag :: more) cmdArgs (answer :: rest) =
          (result_of (collect_flags more cmdArgs rest),
           E_showQuickPick (flag_question flag)
             :: trace_of (collect_flags more cmdArgs rest),
           script_of (collect_flags more cmdArgs rest)))
  /\ (forall l acc s, exists out, result_of (collect_flags l acc s) = Ok out).
Proof.
  intros Ha.
  assert (H : forall rest,
    collect_flag flag cmdArgs (answer :: rest) =
      (Ok cmdArgs, [E_showQuickPick (flag_question flag)], rest)).
  { intros rest. unfold collect_flag, flag_question.
    destruct (truthy (flag_arg flag)); unfold bind, showQuickPick;
      now rewrite (is_Yes_false _ Ha). }
  split; [exact H|]. split; [|split].
  - unfold collect_flag, flag_question.
    now destruct (truthy (flag_arg flag)).
  - intros more rest. unfold collect_flags. simpl.
    now rewrite (bind_Ok _ _ _ _ _ _ (H rest)).
  - intros l acc s.
    destruct (collect_flags_Ok l acc s) as (out & t & s' & Hc & _).
    exists out. now rewrite Hc.
Qed.

End FlagFacts.

(** ** The file watcher *)

Section WatcherFacts.

Import FileWatcher.

(** C8. While the extension is disabled, a change, create or delete event
    on any watcher is dropped: [handleFileChange] returns at once, so the
    backend is not probed and the change callback is not called. *)
Theorem disabled_ignores_events (w : World) (uri : string) :
  isMiseExtensionEnabled w = false ->
  (forall s, handleFileChange w uri s = (Ok tt, [], s))
  /\ (forall this i kind, fire this w i kind uri = []).
Proof.
  intros Hoff.
  assert (H : forall s, handleFileChange w uri s = (Ok tt, [], s)).
  { intros s. unfold handleFileChange. now rewrite Hoff. }
  split; [exact H|].
  intros this i kind. unfold fire.
  destruct (nth_error (fileWatchers this) i) as [fw|]; [|reflexivity].
  induction (listeners kind fw) as [|[] l IH]; [reflexivity|].
  cbn [flat_map]. rewrite IH, H. reflexivity.
Qed.

Lemma fire_no_listeners this w i kind uri :
  (forall fw, In fw (fileWatchers this) -> listeners kind fw = []) ->
  fire this w i kind uri = [].
Proof.
  intros H. unfold fire.
  destruct (nth_error (fileWatchers this) i) as [fw|] eqn:E; [|reflexivity].
  now rewrite (H fw (nth_error_In _ _ E)).
Qed.

Variables misePatterns idiomaticFiles : string.
Variable allowedFileTaskDirs : list string.

(** C10. When the listing of the config files is rejected, the constructor
    returns, having logged the failure; the object holds the one watcher
    on the config globs that was created before the call; no listener is
    registered on it and nothing is pushed to the subscriptions; so no
    later file-system event calls [handleFileChange], and with it the
    change callback. *)
Theorem config_listing_failure_registers_nothing
    (w : World) (rootFolder : string) (e : JsError) :
  getRootFolder w = Some rootFolder ->
  getMiseConfigFiles w = Throw e ->
  constructor misePatterns idiomaticFiles allowedFileTaskDirs w =
    (Ok tt,
     [E_getMiseConfigFiles;
      E_logger Warn "Error initializing file watcher";
      E_logger Info "Unable to initialize file watcher"],
     mkFileWatcher
       [createFileSystemWatcher rootFolder ("{" ^^ misePatterns ^^ "}")] [])
  /\ (forall r t this,
        constructor misePatterns idiomaticFiles allowedFileTaskDirs w
          = (r, t, this) ->
        (forall fw kind, In fw (fileWatchers this) -> listeners kind fw = [])
        /\ subscriptions this = []
        /\ forall h : FsHistory, fire_all this h = []).
Proof.
  intros Hroot Hfail.
  assert (Hc : constructor misePatterns idiomaticFiles allowedFileTaskDirs w =
    (Ok tt,
     [E_getMiseConfigFiles;
      E_logger Warn "Error initializing file watcher";
      E_logger Info "Unable to initialize file watcher"],
     mkFileWatcher
       [createFileSystemWatcher rootFolder ("{" ^^ misePatterns ^^ "}")] [])).
  { unfold constructor, initializeFileWatcher. now rewrite Hroot, Hfail. }
  split; [exact Hc|].
  intros r t this Heq. rewrite Hc in Heq. inversion Heq; subst. clear Heq.
  assert (Hl : forall fw kind,
    In fw [createFileSystemWatcher rootFolder ("{" ^^ misePatterns ^^ "}")] ->
    listeners kind fw = []).
  { intros fw kind [<-|[]]. now destruct kind. }
  split; [exact Hl|]. split; [reflexivity|].
  intros h. unfold fire_all.
  induction h as [|[[[w' i] kind] uri] h IH]; simpl; [reflexivity|].
  rewrite IH, app_nil_r. apply fire_no_listeners.
  intros fw Hin. now apply Hl.
Qed.

End WatcherFacts.

(** ** Names inherited from [Object.prototype] as group keys *)

Section InheritedKeys.

Import Catalog.

Lemma reducer_inherited groups task :
  (forall key, inherited key = true -> own_get key groups = None) ->
  inherited (source_key task) = true ->
  reducer groups task =
  Throw (TypeError "groups[source].push is not a function").
Proof.
  intros Hown Hk.
  assert (Hget : js_get groups (source_key task) = PV_inherited).
  { unfold js_get. now rewrite (Hown _ Hk), Hk. }
  unfold reducer. rewrite Hget. simpl. now rewrite Hget.
Qed.

(** A task list with a task whose group key is an inherited name: the fold
    throws at the first such task. *)
Lemma reduce_inherited_throws rest : forall groups,
  (forall key, inherited key = true -> own_get key groups = None) ->
  Exists (fun t => inherited (source_key t) = true) rest ->
  reduce groups rest =
  Throw (TypeError "groups[source].push is not a function").
Proof.
  induction rest as [|task rest IH]; intros groups Hown Hex.
  - inversion Hex.
  - simpl. destruct (inherited (source_key task)) eqn:Hk.
    + now rewrite (reducer_inherited _ _ Hown Hk).
    + rewrite (reducer_safe _ _ Hk). apply IH.
      * intros key Hkey.
        assert (Hne : key <> source_key task) by congruence.
        destruct (own_get (source_key task) groups) as [a|].
        -- rewrite own_get_set_other by exact Hne. now apply Hown.
        -- rewrite own_get_app_other by exact Hne. now apply Hown.
      * inversion Hex; subst; [congruence|assumption].
Qed.

Lemma groupTasksBySource_inherited_throws tasks :
  Exists (fun t => inherited (source_key t) = true) tasks ->
  groupTasksBySource tasks =
  Throw (TypeError "groups[source].push is not a function").
Proof.
  apply reduce_inherited_throws. reflexivity.
Qed.

(** C1, where the code departs from it. For a task whose source is
    "constructor", [groups[source]] is the function every object inherits:
    no group is created, [push] is not a function of it, and the fold
    throws instead of returning groups; the task before it is lost with
    it. *)
Theorem groupTasksBySource_constructor_throws :
  groupTasksBySource
    [mkTask "build" (Some "mise.toml") "Build";
     mkTask "lint" (Some "constructor") "Lint"]
  = Throw (TypeError "groups[source].push is not a function").
Proof. reflexivity. Qed.

End InheritedKeys.

(** ** Worked examples *)

Example group_by_source :
  Catalog.groupTasksBySource
    [mkTask "build" (Some "mise.toml") "";
     mkTask "hello" None "";
     mkTask "test" (Some "mise.toml") "";
     mkTask "bye" (Some "") ""]
  = Ok [("mise.toml",
         [mkTask "build" (Some "mise.toml") "";
          mkTask "test" (Some "mise.toml") ""]);
        ("Unknown", [mkTask "hello" None ""; mkTask "bye" (Some "") ""])].
Proof. reflexivity. Qed.

Example not_found_message :
  failed_to_run "build" (TaskNotFound "build")
  = "Failed to run task 'build': Error: Task 'build' not found".
Proof. reflexivity. Qed.

Example rejection_without_message :
  failed_to_run "build" (Error "") = "Failed to run task 'build': Error".
Proof. reflexivity. Qed.

Example run_rejected_without_message :
  runTask
    (mkWorld (Ok []) (fun _ => Ok (mkExec "" ""))
       (fun _ => Ok (Some (mkInfo (mkSpec [] []))))
       (fun _ _ => Throw (Error "")) (fun _ _ => Ok tt)
       (fun _ => Ok (mkExec "" "")) true (fun _ => Ok tt) None (Ok []))
    "build" []
  = (Ok tt,
     [E_getTaskInfo "build"; E_runTask "build" [];
      E_showErrorMessage "Failed to run task 'build': Error"],
     []).
Proof. reflexivity. Qed.

Example watch_reaches_the_backend :
  watchTask (sample_world (Some sample_info)) "deploy" sample_answers
  = (Ok tt,
     [E_getTools; E_execAsync "which watchexec"; E_getTaskInfo "deploy";
      E_collectArgumentValues;
      E_showInputBox "Enter value for env" "env";
      E_showInputBox "Enter value for file" "file";
      E_showQuickPick "Enable --verbose?";
      E_showQuickPick "Do you want to provide --tag?";
      E_showInputBox "Enter value for --tag" "name";
      E_watchTask "deploy" ["prod"; "a.txt"; "--verbose"; "--tag"; "v1"]],
     []).
Proof. reflexivity. Qed.

Example required_input_cannot_be_empty :
  submit (validateInput (mkArg "file" true)) [Some ""; Some "a.txt"; None]
  = (Some "a.txt", [None]).
Proof. reflexivity. Qed.

Example collect_in_declaration_order :
  collectArgumentValues
    (mkInfo (mkSpec [mkArg "file" true; mkArg "mode" false]
               [mkFlag "--verbose" None; mkFlag "--env" (Some "name")]))
    [Some "a.txt"; None; Some "Yes"; Some "Yes"; Some "prod"]
  = (Ok ["a.txt"; "--verbose"; "--env"; "prod"],
     [E_collectArgumentValues;
      E_showInputBox "Enter value for file" "file";
      E_showInputBox "Enter value for mode" "mode";
      E_showQuickPick "Enable --verbose?";
      E_showQuickPick "Do you want to provide --env?";
      E_showInputBox "Enter value for --env" "name"],
     []).
Proof. reflexivity. Qed.

(** C6, as stated, fails for a flag whose [arg] is present but empty: the
    code takes it for a switch, and a "Yes" appends the flag name alone;
    the value is never asked for. *)
Lemma valued_flag_empty_arg_counterexample :
  flag_arg (mkFlag "--env" (Some "")) = Some ""
  /\ collectArgumentValues (mkInfo (mkSpec [] [mkFlag "--env" (Some "")]))
       [Some "Yes"; Some "prod"]
     = (Ok ["--env"],
        [E_collectArgumentValues; E_showQuickPick "Enable --env?"],
        [Some "prod"]).
Proof. split; reflexivity. Qed.

(** ** The theorems at sample inputs *)

Lemma required_argument_aborts_witness :
  getTaskInfo
    (sample_world
       (Some (mkInfo (mkSpec [mkArg "env" false; mkArg "file" true] []))))
    "deploy"
  = Ok (Some (mkInfo (mkSpec [mkArg "env" false; mkArg "file" true] [])))
  /\ collect_args [mkArg "env" false] [] [Some "prod"; None]
     = (Ok ["prod"], [E_showInputBox "Enter value for env" "env"], [None])
  /\ prompt_arg (mkArg "file" true) [None]
     = (Ok None, [E_showInputBox "Enter value for file" "file"], [])
  /\ runTask
       (sample_world
          (Some (mkInfo (mkSpec [mkArg "env" false; mkArg "file" true] []))))
       "deploy" [Some "prod"; None]
     = (Ok tt,
        [E_getTaskInfo "deploy"; E_collectArgumentValues;
         E_showInputBox "Enter value for env" "env";
         E_showInputBox "Enter value for file" "file";
         E_showErrorMessage
           "Failed to run task 'deploy': Error: Required argument file was not provided"],
        []).
Proof.
  split; [reflexivity|]. split; [reflexivity|]. split; [reflexivity|].
  exact (proj1 (proj2
    (required_argument_aborts
       (sample_world
          (Some (mkInfo (mkSpec [mkArg "env" false; mkArg "file" true] []))))
       "deploy"
       (mkInfo (mkSpec [mkArg "env" false; mkArg "file" true] []))
       [mkArg "env" false] (mkArg "file" true) []
       [Some "prod"; None] ["prod"]
       [E_showInputBox "Enter value for env" "env"] [None]
       None [E_showInputBox "Enter value for file" "file"] []
       eq_refl eq_refl eq_refl eq_refl eq_refl eq_refl))).
Defined.

Lemma trivial_spec_skips_collector_witness :
  getTaskInfo (sample_world (Some (mkInfo (mkSpec [] [])))) "build"
  = Ok (Some (mkInfo (mkSpec [] [])))
  /\ watchexec_missing (sample_world (Some (mkInfo (mkSpec [] [])))) = false
  /\ runTask (sample_world (Some (mkInfo (mkSpec [] [])))) "build" []
     = (Ok tt, [E_getTaskInfo "build"; E_runTask "build" []], [])
  /\ watchTask (sample_world (Some (mkInfo (mkSpec [] [])))) "build" []
     = (Ok tt,
        [E_getTools; E_execAsync "which watchexec";
         E_getTaskInfo "build"; E_watchTask "build" []],
        []).
Proof.
  pose proof
    (trivial_spec_skips_collector
       (sample_world (Some (mkInfo (mkSpec [] [])))) "build"
       (mkInfo (mkSpec [] [])) [] eq_refl eq_refl eq_refl)
    as (Hrun & Hwatch & _).
  split; [reflexivity|]. split; [reflexivity|].
  split; [exact Hrun|exact (Hwatch eq_refl)].
Defined.

Lemma task_not_found_is_reported_witness :
  getTaskInfo (sample_world None) "ghost" = Ok None
  /\ runTask (sample_world None) "ghost" []
     = (Ok tt,
        [E_getTaskInfo "ghost";
         E_showErrorMessage
           "Failed to run task 'ghost': Error: Task 'ghost' not found"],
        []).
Proof.
  split; [reflexivity|].
  exact (proj1
    (task_not_found_is_reported (sample_world None) "ghost" [] eq_refl)).
Defined.

Lemma valued_flag_tokens_witness :
  flag_arg (mkFlag "--env" (Some "name")) = Some "name"
  /\ "name" <> ""
  /\ "prod" <> ""
  /\ result_of
       (collectArgumentValues (mkInfo (mkSpec [] [mkFlag "--env" (Some "name")]))
          [Some "Yes"; Some "prod"])
     = Ok ["--env"; "prod"]
  /\ result_of
       (collectArgumentValues (mkInfo (mkSpec [] [mkFlag "--env" (Some "name")]))
          [Some "No"])
     = Ok [].
Proof.
  assert (Hn : "name" <> "") by discriminate.
  assert (Hp : "prod" <> "") by discriminate.
  assert (Ha : Some "No" <> Some "Yes") by discriminate.
  pose proof
    (valued_flag_tokens (mkFlag "--env" (Some "name")) [] "name" eq_refl Hn)
    as (Hyes & Hno & _).
  split; [reflexivity|]. split; [exact Hn|]. split; [exact Hp|]. split.
  - exact (proj2 (Hyes "prod" [] Hp)).
  - exact (proj2 (Hno (Some "No") [] Ha)).
Defined.

Lemma boolean_flag_tokens_witness :
  flag_arg (mkFlag "--verbose" None) = None
  /\ result_of
       (collectArgumentValues (mkInfo (mkSpec [] [mkFlag "--verbose" None]))
          [Some "Yes"])
     = Ok ["--verbose"]
  /\ result_of
       (collectArgumentValues (mkInfo (mkSpec [] [mkFlag "--verbose" None]))
          [Some "No"])
     = Ok [].
Proof.
  pose proof (boolean_flag_tokens (mkFlag "--verbose" None) [] eq_refl)
    as (Hyes & Hno).
  split; [reflexivity|].
  split; [exact (proj2 (Hyes []))|exact (proj2 (Hno []))].
Defined.

Lemma flag_prompt_declined_is_skipped_witness :
  (None : option string) <> Some "Yes"
  /\ collect_flags [mkFlag "--env" (Some "name"); mkFlag "--verbose" None]
       ["a.txt"] [None; Some "Yes"]
     = (Ok ["a.txt"; "--verbose"],
        [E_showQuickPick "Do you want to provide --env?";
         E_showQuickPick "Enable --verbose?"],
        []).
Proof.
  assert (Ha : (None : option string) <> Some "Yes") by discriminate.
  split; [exact Ha|].
  exact (proj1 (proj2 (proj2
    (flag_prompt_declined_is_skipped (mkFlag "--env" (Some "name"))
       ["a.txt"] None Ha)))
    [mkFlag "--verbose" None] [Some "Yes"]).
Defined.

Lemma disabled_ignores_events_witness :
  isMiseExtensionEnabled (sample_world None) = false
  /\ FileWatcher.handleFileChange (sample_world None) "/ws/mise.toml" []
     = (Ok tt, [], []).
Proof.
  split; [reflexivity|].
  exact (proj1
    (disabled_ignores_events (sample_world None) "/ws/mise.toml" eq_refl) []).
Defined.

Lemma config_listing_failure_registers_nothing_witness :
  getRootFolder (sample_world None) = Some "/ws"
  /\ getMiseConfigFiles (sample_world None)
     = Throw (Error "mise is not installed")
  /\ FileWatcher.constructor "mise.toml,.mise.toml" ".nvmrc" ["mise-tasks"]
       (sample_world None)
     = (Ok tt,
        [E_getMiseConfigFiles;
         E_logger Warn "Error initializing file watcher";
         E_logger Info "Unable to initialize file watcher"],
        FileWatcher.mkFileWatcher
          [FileWatcher.createFileSystemWatcher "/ws" "{mise.toml,.mise.toml}"]
          []).
Proof.
  split; [reflexivity|]. split; [reflexivity|].
  exact (proj1
    (config_listing_failure_registers_nothing
       "mise.toml,.mise.toml" ".nvmrc" ["mise-tasks"]
       (sample_world None) "/ws" (Error "mise is not installed")
       eq_refl eq_refl)).
Defined.

(** * Further properties *)

(** ** The task tree *)

Section TreeFacts.

Import Catalog TaskTree.

Lemma own_get_None_existsb key o :
  own_get key o = None <-> existsb (String.eqb key) (map fst o) = false.
Proof.
  induction o as [|[k v] o IH]; simpl; [tauto|].
  destruct (String.eqb key k); simpl; [split; discriminate|exact IH].
Qed.

Lemma safe_or_inherited tasks :
  Forall (fun t => inherited (source_key t) = false) tasks
  \/ Exists (fun t => inherited (source_key t) = true) tasks.
Proof.
  induction tasks as [|t tasks [IH|IH]].
  - left. constructor.
  - destruct (inherited (source_key t)) eqn:E.
    + right. now constructor.
    + left. now constructor.
  - right. now constructor 2.
Qed.

(** The keys of the groups during the fold. *)
Lemma keys_reduce rest : forall groups groups',
  (forall key, inherited key = true -> own_get key groups = None) ->
  reduce groups rest = Ok groups' ->
  map fst groups' = first_seen_from (map fst groups) (map source_key rest).
Proof.
  induction rest as [|task rest IH]; intros groups groups' Hown Hred;
    simpl in *.
  - now inversion Hred.
  - destruct (inherited (source_key task)) eqn:Hk.
    + rewrite (reducer_inherited _ _ Hown Hk) in Hred. discriminate.
    + rewrite (reducer_safe _ _ Hk) in Hred.
      destruct (own_get (source_key task) groups) as [a|] eqn:E.
      * assert (Hex : existsb (String.eqb (source_key task)) (map fst groups)
                      = true).
        { destruct (existsb _ _) eqn:Ex; [reflexivity|].
          apply own_get_None_existsb in Ex. congruence. }
        rewrite Hex, <- (keys_set_present _ (a ++ [task]) _ _ E).
        apply IH; [|exact Hred].
        intros key Hkey. rewrite own_get_set_other by congruence.
        now apply Hown.
      * pose proof (proj1 (own_get_None_existsb _ _) E) as Hex.
        rewrite Hex.
        replace (map fst groups ++ [source_key task])
          with (map fst (groups ++ [(source_key task, [task])]))
          by now rewrite map_app.
        apply IH; [|exact Hred].
        intros key Hkey. rewrite own_get_app_other by congruence.
        now apply Hown.
Qed.

Lemma first_seen_from_In keys : forall seen key,
  In key (first_seen_from seen keys) -> In key seen \/ In key keys.
Proof.
  induction keys as [|k keys IH]; intros seen key Hin; simpl in *.
  - now left.
  - destruct (IH _ _ Hin) as [H|H]; [|now right; right].
    destruct (existsb (String.eqb k) seen); [now left|].
    apply in_app_or in H. destruct H as [H|[H|[]]]; [now left|].
    right. now left.
Qed.

Lemma insert_by_index_perm e l :
  Permutation (insert_by_index e l) (e :: l).
Proof.
  induction l as [|e' l IH]; simpl; [reflexivity|].
  destruct (fst e <=? fst e')%N; [reflexivity|].
  rewrite IH. apply perm_swap.
Qed.

Lemma sort_by_index_perm l : Permutation (sort_by_index l) l.
Proof.
  induction l as [|e l IH]; simpl; [reflexivity|].
  rewrite insert_by_index_perm. now constructor.
Qed.

Lemma Object_entries_perm o : Permutation (Object_entries o) o.
Proof.
  unfold Object_entries. rewrite (sort_by_index_perm (indexed o)).
  induction o as [|p o IH]; simpl; [reflexivity|].
  destruct (array_index (fst p)); simpl.
  - now constructor.
  - rewrite <- Permutation_middle. now constructor.
Qed.

Lemma Object_entries_named o :
  Forall (fun p => array_index (fst p) = None) o -> Object_entries o = o.
Proof.
  unfold Object_entries.
  induction 1 as [|p o Hp Ho IH]; simpl; [reflexivity|].
  rewrite Hp. simpl.
  destruct (sort_by_index (indexed o)) eqn:E; simpl in *.
  - now rewrite IH.
  - assert (Hnil : indexed o = []).
    { clear - Ho. induction Ho as [|q o Hq _ IHo]; simpl; [reflexivity|].
      now rewrite Hq. }
    rewrite Hnil in E. discriminate.
Qed.

Lemma leaves_group_items r (groups : list Entry) :
  leaves r (map group_item groups) = map TaskItem (all_grouped groups).
Proof.
  unfold leaves, all_grouped.
  rewrite flat_map_concat_map, concat_map, !map_map.
  reflexivity.
Qed.

(** X1. When [groupTasksBySource] returns, the keys of the groups are the
    group keys of the tasks in the order in which the list first shows
    them. *)
Theorem groups_in_first_seen_order tasks groups :
  groupTasksBySource tasks = Ok groups ->
  map fst groups = first_seen (map source_key tasks).
Proof.
  intros H. now apply (keys_reduce tasks [] groups).
Qed.

(** X2. [groupTasksBySource] returns groups exactly for the task lists none
    of whose group keys is a property name inherited from
    [Object.prototype]; for all others it throws. *)
Theorem groupTasksBySource_returns_iff tasks :
  (exists groups, groupTasksBySource tasks = Ok groups)
  <-> Forall (fun t => inherited (source_key t) = false) tasks.
Proof.
  split.
  - intros [groups H].
    destruct (safe_or_inherited tasks) as [Hs|Hi]; [exact Hs|].
    rewrite (groupTasksBySource_inherited_throws _ Hi) in H. discriminate.
  - intros Hs.
    destruct (groupTasksBySource_partition tasks Hs) as (groups & H & _).
    now exists groups.
Qed.

(** X3. For a task list without inherited names as group keys, the root of
    the tree is one group item per distinct key, each holding exactly the
    tasks of that key in input order; and the task items below all group
    items are the input tasks, each as often as the input has it. *)
Theorem tree_shows_each_task_once tasks :
  Forall (fun t => inherited (source_key t) = false) tasks ->
  exists entries,
    getChildren (Ok tasks) None = Ok (map group_item entries)
    /\ NoDup (map fst entries)
    /\ (forall key ts, In (key, ts) entries ->
          ts = tasks_of key tasks /\ ts <> [])
    /\ Permutation (leaves (Ok tasks) (map group_item entries))
         (map TaskItem tasks).
Proof.
  intros Hs.
  destruct (groupTasksBySource_partition tasks Hs)
    as (groups & Hg & Hnd & Hcls & _ & Hperm).
  pose proof (Object_entries_perm groups) as Hp.
  exists (Object_entries groups). split; [|split; [|split]].
  - simpl. now rewrite Hg.
  - apply (Permutation_NoDup (l := map fst groups)); [|exact Hnd].
    apply Permutation_map. now symmetry.
  - intros key ts Hin. apply Hcls.
    now apply (Permutation_in _ Hp).
  - rewrite leaves_group_items. apply Permutation_map.
    rewrite <- Hperm. unfold all_grouped.
    rewrite <- !flat_map_concat_map. now apply Permutation_flat_map.
Qed.

(** X4. When no group key is an array index, the group items at the root
    come in the order in which the task list first shows their keys. *)
Theorem root_items_in_first_seen_order tasks items :
  Forall (fun t => array_index (source_key t) = None) tasks ->
  getChildren (Ok tasks) None = Ok items ->
  map label items = first_seen (map source_key tasks).
Proof.
  intros Hidx Hc. simpl in Hc.
  destruct (groupTasksBySource tasks) as [groups|e] eqn:Hg; [|discriminate].
  inversion Hc; subst items. clear Hc.
  pose proof (keys_reduce tasks [] groups (fun _ _ => eq_refl) Hg) as Hk.
  simpl in Hk. fold (first_seen (map source_key tasks)) in Hk.
  rewrite Object_entries_named.
  - rewrite map_map. simpl. exact Hk.
  - apply Forall_forall. intros [k ts] Hin. simpl.
    assert (Hkin : In k (map fst groups)).
    { change k with (fst (k, ts)). now apply in_map. }
    rewrite Hk in Hkin.
    destruct (first_seen_from_In _ _ _ Hkin) as [[]|Hin'].
    apply in_map_iff in Hin'. destruct Hin' as (t & <- & Ht).
    rewrite Forall_forall in Hidx. now apply Hidx.
Qed.

End TreeFacts.

(** ** More on the argument collector *)

Section CollectorShape.

Lemma collect_arg_eq arg cmdArgs s :
  collect_arg arg cmdArgs s =
  ((if truthy (fst (submit (validateInput arg) s))
    then Ok (cmdArgs ++ [value_of (fst (submit (validateInput arg) s))])
    else if arg_required arg then Throw (MissingRequired (arg_name arg))
         else Ok cmdArgs),
   [E_showInputBox ("Enter value for " ^^ arg_name arg) (arg_name arg)],
   snd (submit (validateInput arg) s)).
Proof.
  unfold collect_arg, prompt_arg, showInputBox, bind.
  destruct (submit (validateInput arg) s) as [v s1]. simpl.
  destruct (truthy v); [reflexivity|].
  now destruct (arg_required arg).
Qed.

Lemma truthy_value_of v : truthy v = true -> value_of v <> "".
Proof.
  destruct v as [x|]; simpl; [|discriminate].
  unfold truthy_str. rewrite negb_true_iff. now apply String.eqb_neq.
Qed.

(** One flag adds nothing, its name, or its name and a non-empty value, and
    asks one or two questions. *)
Lemma collect_flag_eq flag cmdArgs s :
  exists new t s',
    collect_flag flag cmdArgs s = (Ok (cmdArgs ++ new), t, s')
    /\ (new = []
        \/ new = [flag_name flag]
        \/ exists value, value <> "" /\ new = [flag_name flag; value])
    /\ 1 <= List.length t <= 2.
Proof.
  unfold collect_flag.
  destruct (truthy (flag_arg flag)).
  - destruct (showQuickPick_Ok
                ("Do you want to provide " ^^ flag_name flag ^^ "?") s)
      as (v & s1 & H1).
    rewrite (bind_Ok _ _ _ _ _ _ H1).
    destruct (is_Yes v).
    + destruct (showInputBox_Ok ("Enter value for " ^^ flag_name flag)
                  (value_of (flag_arg flag)) no_validation s1)
        as (v2 & s2 & H2).
      rewrite (bind_Ok _ _ _ _ _ _ H2).
      destruct (truthy v2) eqn:Hv; simpl.
      * exists [flag_name flag; value_of v2]. do 2 eexists.
        split; [reflexivity|]. split; [|simpl; lia].
        right. right. exists (value_of v2).
        split; [now apply truthy_value_of|reflexivity].
      * exists []. do 2 eexists. rewrite app_nil_r.
        split; [reflexivity|]. split; [now left|simpl; lia].
    + simpl. exists []. do 2 eexists. rewrite app_nil_r.
      split; [reflexivity|]. split; [now left|simpl; lia].
  - destruct (showQuickPick_Ok ("Enable " ^^ flag_name flag ^^ "?") s)
      as (v & s1 & H1).
    rewrite (bind_Ok _ _ _ _ _ _ H1).
    destruct (is_Yes v); simpl.
    + exists [flag_name flag]. do 2 eexists.
      split; [reflexivity|]. split; [now right; left|simpl; lia].
    + exists []. do 2 eexists. rewrite app_nil_r.
      split; [reflexivity|]. split; [now left|simpl; lia].
Qed.

(** The loop over the positional arguments: what it returns and what it
    throws. *)
Lemma collect_args_shape l : forall cmdArgs s,
  (forall out t s',
      collect_args l cmdArgs s = (Ok out, t, s') ->
      exists new,
        out = cmdArgs ++ new
        /\ List.length new <= List.length l
        /\ Forall (fun tok => tok <> "") new
        /\ List.length t = List.length l)
  /\ (forall e t s',
        collect_args l cmdArgs s = (Throw e, t, s') ->
        exists a,
          In a l /\ arg_required a = true /\ e = MissingRequired (arg_name a)).
Proof.
  unfold collect_args.
  induction l as [|arg l IH]; intros cmdArgs s; simpl.
  - split.
    + intros out t s' H. inversion H; subst. exists [].
      rewrite app_nil_r. repeat split; auto.
    + intros e t s' H. discriminate.
  - pose proof (collect_arg_eq arg cmdArgs s) as Ha.
    destruct (truthy (fst (submit (validateInput arg) s))) eqn:Hv.
    + rewrite (bind_Ok _ _ _ _ _ _ Ha).
      destruct (IH (cmdArgs ++ [value_of (fst (submit (validateInput arg) s))])
                  (snd (submit (validateInput arg) s))) as [IHok IHthrow].
      destruct (for_of l collect_arg _ _) as [[[o|e'] t1] s1]; split;
        intros x t s' H; inversion H; subst; clear H.
      * destruct (IHok _ _ _ eq_refl) as (new & -> & Hlen & Hne & Ht).
        exists (value_of (fst (submit (validateInput arg) s)) :: new).
        rewrite <- app_assoc. simpl. split; [reflexivity|].
        split; [lia|]. split; [|unfold trace_of; simpl; lia].
        constructor; [now apply truthy_value_of|exact Hne].
      * destruct (IHthrow _ _ _ eq_refl) as (a & Hin & Hr & He).
        exists a. repeat split; auto.
    + destruct (arg_required arg) eqn:Hr.
      * rewrite (bind_Throw _ _ _ _ _ _ Ha). split;
          intros x t s' H; inversion H; subst; clear H.
        exists arg. repeat split; auto.
      * rewrite (bind_Ok _ _ _ _ _ _ Ha).
        destruct (IH cmdArgs (snd (submit (validateInput arg) s)))
          as [IHok IHthrow].
        destruct (for_of l collect_arg _ _) as [[[o|e'] t1] s1]; split;
          intros x t s' H; inversion H; subst; clear H.
        -- destruct (IHok _ _ _ eq_refl) as (new & -> & Hlen & Hne & Ht).
           exists new. split; [reflexivity|]. split; [simpl; lia|].
           split; [exact Hne|]. unfold trace_of. simpl. lia.
        -- destruct (IHthrow _ _ _ eq_refl) as (a & Hin & Hreq & He).
           exists a. repeat split; auto.
Qed.

(** The loop over the flags. *)
Lemma collect_flags_shape l : forall cmdArgs s,
  exists new t s',
    collect_flags l cmdArgs s = (Ok (cmdArgs ++ new), t, s')
    /\ List.length new <= 2 * List.length l
    /\ Forall (fun tok =>
                 tok <> "" \/ exists f, In f l /\ tok = flag_name f) new
    /\ List.length l <= List.length t <= 2 * List.length l.
Proof.
  unfold collect_flags.
  induction l as [|flag l IH]; intros cmdArgs s; simpl.
  - exists [], [], s. rewrite app_nil_r. repeat split; auto.
  - destruct (collect_flag_eq flag cmdArgs s)
      as (n1 & t1 & s1 & H1 & Hn1 & Ht1).
    destruct (IH (cmdArgs ++ n1) s1) as (n2 & t2 & s2 & H2 & Hl2 & Hf2 & Ht2).
    rewrite (bind_Ok _ _ _ _ _ _ H1), H2. simpl.
    exists (n1 ++ n2), (t1 ++ t2), s2. rewrite app_assoc.
    split; [reflexivity|]. rewrite !length_app.
    assert (Hlen1 : List.length n1 <= 2).
    { destruct Hn1 as [->|[->|(v & _ & ->)]]; simpl; lia. }
    split; [lia|]. split; [|lia].
    apply Forall_app. split.
    + assert (Hname : flag_name flag <> ""
                      \/ exists f, In f (flag :: l)
                                   /\ flag_name flag = flag_name f).
      { right. exists flag. split; [now left|reflexivity]. }
      destruct Hn1 as [->|[->|(v & Hv & ->)]].
      * constructor.
      * constructor; [exact Hname|constructor].
      * constructor; [exact Hname|].
        constructor; [now left|constructor].
    + eapply Forall_impl; [|exact Hf2].
      intros tok [H|(f & Hin & ->)]; [now left|].
      right. exists f. split; [now right|reflexivity].
Qed.

Lemma collectArgumentValues_shape info s out t s' :
  collectArgumentValues info s = (Ok out, t, s') ->
  exists pos fl prompts,
    out = pos ++ fl
    /\ result_of (collect_args (args (usageSpec info)) [] s) = Ok pos
    /\ List.length pos <= List.length (args (usageSpec info))
    /\ List.length fl <= 2 * List.length (flags (usageSpec info))
    /\ Forall (fun tok => tok <> "") pos
    /\ Forall (fun tok =>
                 tok <> ""
                 \/ exists f, In f (flags (usageSpec info))
                              /\ tok = flag_name f) fl
    /\ t = E_collectArgumentValues :: prompts
    /\ List.length (args (usageSpec info))
         + List.length (flags (usageSpec info))
       <= List.length prompts
       <= List.length (args (usageSpec info))
          + 2 * List.length (flags (usageSpec info)).
Proof.
  unfold collectArgumentValues, bind at 1, emit.
  destruct (collect_args_shape (args (usageSpec info)) [] s)
    as [Hok _].
  destruct (collect_args (args (usageSpec info)) [] s)
    as [[[pos|e] t1] s1] eqn:E.
  - destruct (Hok _ _ _ eq_refl) as (new & Hp & Hlen & Hne & Ht1).
    simpl in Hp. subst new.
    rewrite (bind_Ok _ _ _ _ _ _ E).
    destruct (collect_flags_shape (flags (usageSpec info)) pos s1)
      as (fl & t2 & s2 & H2 & Hl2 & Hf2 & Ht2).
    rewrite H2. simpl. intros H. inversion H; subst.
    exists pos, fl, (t1 ++ t2). rewrite length_app.
    repeat split; auto; lia.
  - rewrite (bind_Throw _ _ _ _ _ _ E). discriminate.
Qed.

Lemma collectArgumentValues_throw info s e :
  result_of (collectArgumentValues info s) = Throw e ->
  exists a,
    In a (args (usageSpec info))
    /\ arg_required a = true
    /\ e = MissingRequired (arg_name a).
Proof.
  unfold collectArgumentValues, bind at 1, emit.
  destruct (collect_args_shape (args (usageSpec info)) [] s)
    as [_ Hthrow].
  destruct (collect_args (args (usageSpec info)) [] s)
    as [[[pos|e'] t1] s1] eqn:E.
  - rewrite (bind_Ok _ _ _ _ _ _ E).
    destruct (collect_flags_shape (flags (usageSpec info)) pos s1)
      as (fl & t2 & s2 & H2 & _).
    rewrite H2. discriminate.
  - rewrite (bind_Throw _ _ _ _ _ _ E). unfold result_of. simpl.
    intros H. inversion H; subst. exact (Hthrow _ _ _ eq_refl).
Qed.

(** X5. When the collector returns, its tokens are the values of
    positional arguments, at most one each, followed by the tokens of
    flags, at most two each. *)
Theorem collected_tokens_positional_then_flags info s out t s' :
  collectArgumentValues info s = (Ok out, t, s') ->
  exists pos fl,
    out = pos ++ fl
    /\ result_of (collect_args (args (usageSpec info)) [] s) = Ok pos
    /\ List.length pos <= List.length (args (usageSpec info))
    /\ List.length fl <= 2 * List.length (flags (usageSpec info)).
Proof.
  intros H.
  destruct (collectArgumentValues_shape _ _ _ _ _ H)
    as (pos & fl & prompts & Hout & Hres & Hp & Hf & _).
  exists pos, fl. repeat split; assumption.
Qed.

(** X6. The collector never returns an empty token, as long as no flag of
    the spec has the empty name. *)
Theorem collected_tokens_are_not_empty info s out t s' :
  Forall (fun f => flag_name f <> "") (flags (usageSpec info)) ->
  collectArgumentValues info s = (Ok out, t, s') ->
  Forall (fun tok => tok <> "") out.
Proof.
  intros Hnames H.
  destruct (collectArgumentValues_shape _ _ _ _ _ H)
    as (pos & fl & prompts & -> & _ & _ & _ & Hpos & Hfl & _).
  apply Forall_app. split; [exact Hpos|].
  eapply Forall_impl; [|exact Hfl].
  intros tok [Hne|(f & Hin & ->)]; [exact Hne|].
  rewrite Forall_forall in Hnames. now apply Hnames.
Qed.

(** X7. A collection that returns has entered the collector and then only
    prompted: once for every positional argument, and once or twice for
    every flag. *)
Theorem collector_prompt_count info s out t s' :
  collectArgumentValues info s = (Ok out, t, s') ->
  exists prompts,
    t = E_collectArgumentValues :: prompts
    /\ Forall (fun ev => is_prompt ev = true) prompts
    /\ List.length (args (usageSpec info))
         + List.length (flags (usageSpec info))
       <= List.length prompts
       <= List.length (args (usageSpec info))
          + 2 * List.length (flags (usageSpec info)).
Proof.
  intros H.
  destruct (collectArgumentValues_shape _ _ _ _ _ H)
    as (pos & fl & prompts & _ & _ & _ & _ & _ & _ & Ht & Hlen).
  exists prompts. split; [exact Ht|]. split; [|exact Hlen].
  revert H. subst t.
  unfold collectArgumentValues, bind at 1, emit.
  pose proof (collect_args_prompts (args (usageSpec info)) [] s) as P1.
  destruct (collect_args (args (usageSpec info)) [] s)
    as [[[c|e] t1] s1] eqn:E.
  - rewrite (bind_Ok _ _ _ _ _ _ E).
    destruct (collect_flags_Ok (flags (usageSpec info)) c s1)
      as (o & t2 & s2 & H2 & P2).
    rewrite H2. simpl. intros H. inversion H; subst.
    apply Forall_app. now split.
  - rewrite (bind_Throw _ _ _ _ _ _ E). discriminate.
Qed.

(** X8. The collector throws nothing but the error of a missing required
    argument, and that argument is a required positional argument of the
    spec. *)
Theorem collector_fails_only_on_required info s e :
  result_of (collectArgumentValues info s) = Throw e ->
  exists a,
    In a (args (usageSpec info))
    /\ arg_required a = true
    /\ e = MissingRequired (arg_name a).
Proof. apply collectArgumentValues_throw. Qed.

(** X9. For a spec without required positional argument the collector
    returns, whatever the user does. *)
Theorem collector_without_required_returns info s :
  Forall (fun a => arg_required a = false) (args (usageSpec info)) ->
  exists out, result_of (collectArgumentValues info s) = Ok out.
Proof.
  intros Hopt.
  destruct (result_of (collectArgumentValues info s)) as [out|e] eqn:E;
    [now exists out|].
  destruct (collectArgumentValues_throw _ _ _ E) as (a & Hin & Hreq & _).
  rewrite Forall_forall in Hopt. rewrite (Hopt _ Hin) in Hreq.
  discriminate.
Qed.

Lemma submit_required a s :
  arg_required a = true ->
  fst (submit (validateInput a) s) <> Some "".
Proof.
  intros Hreq. induction s as [|[x|] s IH]; simpl; try discriminate.
  unfold validateInput at 1. rewrite Hreq. simpl.
  destruct (truthy_str x) eqn:Hx; simpl; [|exact IH].
  intros H. inversion H; subst. discriminate.
Qed.

(** X10. The input box of a required argument does not accept the empty
    string: its prompt never yields it, so the collector throws for that
    argument exactly when the prompt was dismissed. *)
Theorem required_prompt_fails_only_when_dismissed a cmdArgs s v t s' :
  arg_required a = true ->
  prompt_arg a s = (Ok v, t, s') ->
  v <> Some ""
  /\ (result_of (collect_arg a cmdArgs s) = Throw (MissingRequired (arg_name a))
      <-> v = None).
Proof.
  intros Hreq Hp.
  assert (Hv : v = fst (submit (validateInput a) s)).
  { unfold prompt_arg, showInputBox in Hp.
    destruct (submit (validateInput a) s) as [v0 s0].
    now inversion Hp. }
  pose proof (submit_required a s Hreq) as Hne. rewrite <- Hv in Hne.
  split; [exact Hne|].
  rewrite collect_arg_eq, <- Hv, Hreq. unfold result_of. simpl.
  destruct v as [x|]; simpl.
  - destruct (truthy_str x) eqn:Hx.
    + split; discriminate.
    + exfalso. apply Hne. f_equal. unfold truthy_str in Hx.
      apply negb_false_iff in Hx. now apply String.eqb_eq.
  - split; reflexivity.
Qed.

(** X11. An optional positional argument whose prompt ends with no value
    is left out: the tokens collected so far are kept and the loop goes on
    with the arguments that follow. *)
Theorem optional_argument_is_omitted a cmdArgs s v t s1 :
  arg_required a = false ->
  prompt_arg a s = (Ok v, t, s1) ->
  truthy v = false ->
  collect_arg a cmdArgs s = (Ok cmdArgs, t, s1)
  /\ (forall more,
        collect_args (a :: more) cmdArgs s =
          (result_of (collect_args more cmdArgs s1),
           t ++ trace_of (collect_args more cmdArgs s1),
           script_of (collect_args more cmdArgs s1))).
Proof.
  intros Hopt Hp Hv.
  assert (Ha : collect_arg a cmdArgs s = (Ok cmdArgs, t, s1)).
  { unfold collect_arg. rewrite (bind_Ok _ _ _ _ _ _ Hp), Hv, Hopt.
    simpl. now rewrite app_nil_r. }
  split; [exact Ha|].
  intros more. unfold collect_args. simpl.
  now rewrite (bind_Ok _ _ _ _ _ _ Ha).
Qed.

End CollectorShape.

(** ** More on running and watching *)

Section RunnerShape.

Variable w : World.

(** [runTask], path by path. *)
Lemma runTask_eq taskName s :
  runTask w taskName s =
  match getTaskInfo w taskName with
  | Throw e =>
      (Ok tt,
       [E_getTaskInfo taskName;
        E_showErrorMessage (failed_to_run taskName e)], s)
  | Ok None =>
      (Ok tt,
       [E_getTaskInfo taskName;
        E_showErrorMessage (failed_to_run taskName (TaskNotFound taskName))],
       s)
  | Ok (Some info) =>
      if needs_arguments info then
        match collectArgumentValues info s with
        | (Ok out, t, s1) =>
            (Ok tt,
             E_getTaskInfo taskName
               :: t ++ E_runTask taskName out
                    :: report taskName (miseService_runTask w taskName out),
             s1)
        | (Throw e, t, s1) =>
            (Ok tt,
             E_getTaskInfo taskName
               :: t ++ [E_showErrorMessage (failed_to_run taskName e)],
             s1)
        end
      else
        (Ok tt,
         [E_getTaskInfo taskName; E_runTask taskName []]
           ++ report taskName (miseService_runTask w taskName []),
         s)
  end.
Proof.
  unfold runTask, try_catch, bind at 1, await at 1.
  destruct (getTaskInfo w taskName) as [[info|]|e]; try reflexivity.
  destruct (needs_arguments info).
  - destruct (collectArgumentValues info s) as [[[out|e] t] s1] eqn:Hc.
    + rewrite (bind_Ok _ _ _ _ _ _ Hc). unfold await. simpl.
      destruct (miseService_runTask w taskName out) as [[]|e]; simpl;
        rewrite <- ?app_assoc; reflexivity.
    + rewrite (bind_Throw _ _ _ _ _ _ Hc). reflexivity.
  - unfold await.
    now destruct (miseService_runTask w taskName []) as [[]|e].
Qed.

(** The collector enters, then prompts, whatever it ends with. *)
Lemma collector_trace info s :
  exists prompts,
    trace_of (collectArgumentValues info s)
    = E_collectArgumentValues :: prompts
    /\ Forall (fun ev => is_prompt ev = true) prompts.
Proof.
  unfold collectArgumentValues, bind at 1, emit.
  pose proof (collect_args_prompts (args (usageSpec info)) [] s) as P1.
  destruct (collect_args (args (usageSpec info)) [] s)
    as [[[c|e] t1] s1] eqn:E.
  - rewrite (bind_Ok _ _ _ _ _ _ E).
    destruct (collect_flags_Ok (flags (usageSpec info)) c s1)
      as (o & t2 & s2 & H2 & P2).
    rewrite H2. simpl. eexists. split; [reflexivity|].
    apply Forall_app. now split.
  - rewrite (bind_Throw _ _ _ _ _ _ E). simpl. eexists.
    split; [reflexivity|exact P1].
Qed.

Lemma count_app p t1 t2 : count p (t1 ++ t2) = count p t1 + count p t2.
Proof. unfold count. now rewrite filter_app, length_app. Qed.

Lemma count_none p t :
  Forall (fun ev => p ev = false) t -> count p t = 0.
Proof.
  unfold count. induction 1 as [|ev t Hev _ IH]; simpl; [reflexivity|].
  now rewrite Hev.
Qed.

Lemma count_prompts p t :
  (forall ev, is_prompt ev = true -> p ev = false) ->
  Forall (fun ev => is_prompt ev = true) t -> count p t = 0.
Proof.
  intros Hp Ht. apply count_none. eapply Forall_impl; [|exact Ht].
  exact Hp.
Qed.

Lemma count_collector p info s :
  p E_collectArgumentValues = false ->
  (forall ev, is_prompt ev = true -> p ev = false) ->
  count p (trace_of (collectArgumentValues info s)) = 0.
Proof.
  intros Hc Hp. destruct (collector_trace info s) as (prompts & -> & Hq).
  change (E_collectArgumentValues :: prompts)
    with ([E_collectArgumentValues] ++ prompts).
  rewrite count_app, (count_prompts _ _ Hp Hq). unfold count. simpl.
  now rewrite Hc.
Qed.

Lemma count_report_le p taskName r : count p (report taskName r) <= 1.
Proof.
  destruct r as [u|e]; unfold count; simpl; [lia|].
  destruct (p _); simpl; lia.
Qed.

Lemma count_report_not_message p taskName r :
  (forall m, p (E_showErrorMessage m) = false) ->
  count p (report taskName r) = 0.
Proof.
  intros Hp. destruct r as [u|e]; unfold count; simpl; [reflexivity|].
  now rewrite Hp.
Qed.

(** X12. When the task has arguments or flags and the collector returns
    tokens, [runTask] passes exactly these tokens to the backend, right
    after the prompts, and shows an error only if the backend rejects;
    [watchTask] does the same with the watch operation once the watch
    prerequisite is met. *)
Theorem collected_tokens_are_passed_on taskName info s out t s' :
  getTaskInfo w taskName = Ok (Some info) ->
  needs_arguments info = true ->
  collectArgumentValues info s = (Ok out, t, s') ->
  runTask w taskName s =
    (Ok tt,
     E_getTaskInfo taskName
       :: t ++ E_runTask taskName out
            :: report taskName (miseService_runTask w taskName out),
     s')
  /\ (watchexec_missing w = false ->
      watchTask w taskName s =
        (Ok tt,
         E_getTools :: E_execAsync "which watchexec"
           :: E_getTaskInfo taskName
           :: t ++ E_watchTask taskName out
                :: report taskName (miseService_watchTask w taskName out),
         s')).
Proof.
  intros Hi Hn Hc. split.
  - now rewrite runTask_eq, Hi, Hn, Hc.
  - intros Hm. now rewrite watchTask_unfold, Hm, watchTask_try_eq, Hi, Hn, Hc.
Qed.

Lemma collector_counts info s :
  count is_run (trace_of (collectArgumentValues info s)) = 0
  /\ count is_watch (trace_of (collectArgumentValues info s)) = 0
  /\ count is_error_message (trace_of (collectArgumentValues info s)) = 0.
Proof.
  repeat split; apply count_collector; try reflexivity; now intros [].
Qed.

(** The calls of [runTask]: the lookup, then possibly the collector, then
    an error message, or the run operation and what it reports. *)
Lemma runTask_shape taskName s :
  exists quiet tail,
    trace_of (runTask w taskName s) = [E_getTaskInfo taskName] ++ quiet ++ tail
    /\ (count is_run quiet = 0 /\ count is_watch quiet = 0
        /\ count is_error_message quiet = 0)
    /\ ((exists m, tail = [E_showErrorMessage m])
        \/ exists out,
             tail = E_runTask taskName out
                      :: report taskName (miseService_runTask w taskName out)).
Proof.
  rewrite runTask_eq.
  destruct (getTaskInfo w taskName) as [[info|]|e].
  - destruct (needs_arguments info).
    + pose proof (collector_counts info s) as Hq.
      destruct (collectArgumentValues info s) as [[[out|e] t] s1];
        exists t; eexists; (split; [reflexivity|]); (split; [exact Hq|]).
      * right. now exists out.
      * left. now eexists.
    + exists []. eexists. split; [reflexivity|]. split; [now repeat split|].
      right. now exists [].
  - exists []. eexists. split; [reflexivity|]. split; [now repeat split|].
    left. now eexists.
  - exists []. eexists. split; [reflexivity|]. split; [now repeat split|].
    left. now eexists.
Qed.

Lemma watchTask_try_shape taskName s :
  exists quiet tail,
    trace_of (watchTask_try w taskName s)
    = [E_getTaskInfo taskName] ++ quiet ++ tail
    /\ (count is_run quiet = 0 /\ count is_watch quiet = 0
        /\ count is_error_message quiet = 0)
    /\ ((exists m, tail = [E_showErrorMessage m])
        \/ exists out,
             tail = E_watchTask taskName out
                      :: report taskName
                           (miseService_watchTask w taskName out)).
Proof.
  rewrite watchTask_try_eq.
  destruct (getTaskInfo w taskName) as [[info|]|e].
  - destruct (needs_arguments info).
    + pose proof (collector_counts info s) as Hq.
      destruct (collectArgumentValues info s) as [[[out|e] t] s1];
        exists t; eexists; (split; [reflexivity|]); (split; [exact Hq|]).
      * right. now exists out.
      * left. now eexists.
    + exists []. eexists. split; [reflexivity|]. split; [now repeat split|].
      right. now exists [].
  - exists []. eexists. split; [reflexivity|]. split; [now repeat split|].
    left. now eexists.
  - exists []. eexists. split; [reflexivity|]. split; [now repeat split|].
    left. now eexists.
Qed.

Lemma watchTask_shape taskName s :
  trace_of (watchTask w taskName s)
  = [E_getTools; E_execAsync "which watchexec";
     E_showErrorMessage watchexec_required]
  \/ exists quiet tail,
       trace_of (watchTask w taskName s)
       = [E_getTools; E_execAsync "which watchexec"]
           ++ [E_getTaskInfo taskName] ++ quiet ++ tail
       /\ (count is_run quiet = 0 /\ count is_watch quiet = 0
           /\ count is_error_message quiet = 0)
       /\ ((exists m, tail = [E_showErrorMessage m])
           \/ exists out,
                tail = E_watchTask taskName out
                         :: report taskName
                              (miseService_watchTask w taskName out)).
Proof.
  rewrite watchTask_unfold.
  destruct (watchexec_missing w); [now left|]. right.
  destruct (watchTask_try_shape taskName s) as (q & tail & Ht & Hq & Htail).
  exists q, tail. unfold trace_of at 1. simpl fst. simpl snd.
  rewrite Ht. now repeat split.
Qed.

(** X13. Whatever the collaborators and the user do, [runTask] calls the
    run operation at most once and the watch operation never, and shows at
    most one error message; [watchTask] calls the watch operation at most
    once and the run operation never, and shows at most one error
    message. *)
Theorem at_most_one_invocation taskName s :
  count is_run (trace_of (runTask w taskName s)) <= 1
  /\ count is_watch (trace_of (runTask w taskName s)) = 0
  /\ count is_error_message (trace_of (runTask w taskName s)) <= 1
  /\ count is_watch (trace_of (watchTask w taskName s)) <= 1
  /\ count is_run (trace_of (watchTask w taskName s)) = 0
  /\ count is_error_message (trace_of (watchTask w taskName s)) <= 1.
Proof.
  destruct (runTask_shape taskName s)
    as (q & tail & -> & (Hq1 & Hq2 & Hq3) & Htail).
  rewrite !count_app, Hq1, Hq2, Hq3.
  assert (Hw : count is_watch (trace_of (watchTask w taskName s)) <= 1
               /\ count is_run (trace_of (watchTask w taskName s)) = 0
               /\ count is_error_message (trace_of (watchTask w taskName s))
                  <= 1).
  { destruct (watchTask_shape taskName s) as [->|Hgo].
    - unfold count. simpl. lia.
    - destruct Hgo as (q' & tail' & -> & (Hp1 & Hp2 & Hp3) & Htail').
      rewrite !count_app, Hp1, Hp2, Hp3.
      destruct Htail' as [[m ->]|[out ->]].
      + unfold count. simpl. lia.
      + destruct (miseService_watchTask w taskName out); unfold count; simpl;
          lia. }
  destruct Htail as [[m ->]|[out ->]].
  - unfold count at 1 2 3 4 5 6. simpl. lia.
  - destruct (miseService_runTask w taskName out);
      unfold count at 1 2 3 4 5 6; simpl; lia.
Qed.

End RunnerShape.

Section RunnerPaths.

Variable w : World.

(** X14. When the lookup of the task itself is rejected, [runTask] shows
    the rejection and ends: the user is not prompted and the backend is
    not asked to run anything; likewise for [watchTask] once the watch
    prerequisite is met. *)
Theorem lookup_failure_is_reported taskName s e :
  getTaskInfo w taskName = Throw e ->
  runTask w taskName s =
    (Ok tt,
     [E_getTaskInfo taskName; E_showErrorMessage (failed_to_run taskName e)],
     s)
  /\ (watchexec_missing w = false ->
      watchTask w taskName s =
        (Ok tt,
         [E_getTools; E_execAsync "which watchexec"; E_getTaskInfo taskName;
          E_showErrorMessage (failed_to_run taskName e)],
         s)).
Proof.
  intros Hi. split.
  - now rewrite runTask_eq, Hi.
  - intros Hm. now rewrite watchTask_unfold, Hm, watchTask_try_eq, Hi.
Qed.

Lemma as_watch_quiet t : count is_run t = 0 -> map as_watch t = t.
Proof.
  unfold count. induction t as [|ev t IH]; simpl; [reflexivity|].
  destruct ev; simpl; intros H; try discriminate; now rewrite IH.
Qed.

Lemma as_watch_report taskName r :
  map as_watch (report taskName r) = report taskName r.
Proof. now destruct r. Qed.

(** X15. Once the watch prerequisite is met, [watchTask] is [runTask] with
    the watch operation in the place of the run operation: after the two
    probes it makes the same calls, asks the same questions and shows the
    same messages as [runTask] would with a run operation that answers as
    the watch operation does. *)
Theorem watch_mirrors_run taskName s :
  watchexec_missing w = false ->
  watchTask w taskName s =
    (result_of (runTask (with_runTask (miseService_watchTask w) w) taskName s),
     [E_getTools; E_execAsync "which watchexec"]
       ++ map as_watch
            (trace_of
               (runTask (with_runTask (miseService_watchTask w) w) taskName s)),
     script_of (runTask (with_runTask (miseService_watchTask w) w) taskName s)).
Proof.
  intros Hm. rewrite watchTask_unfold, Hm, watchTask_try_eq, runTask_eq.
  simpl getTaskInfo. simpl miseService_runTask.
  destruct (getTaskInfo w taskName) as [[info|]|e]; try reflexivity.
  destruct (needs_arguments info).
  - pose proof (collector_counts info s) as (Hq & _).
    destruct (collectArgumentValues info s) as [[[out|e] t] s1];
      unfold result_of, trace_of, script_of in *; simpl in *.
    + now rewrite map_app, (as_watch_quiet _ Hq); simpl;
        rewrite as_watch_report.
    + now rewrite map_app, (as_watch_quiet _ Hq).
  - unfold result_of, trace_of, script_of. simpl.
    now rewrite as_watch_report.
Qed.

(** X16. The handlers that [registerMiseCommands] installs never reach
    their [logger.error]: they make the calls of [runTask], respectively
    [watchTask], and log nothing. *)
Theorem command_handlers_never_log taskName s :
  RUN_TASK_COMMAND_handler w taskName s =
    (trace_of (runTask w taskName s), [], script_of (runTask w taskName s))
  /\ WATCH_TASK_COMMAND_handler w taskName s =
       (trace_of (watchTask w taskName s), [],
        script_of (watchTask w taskName s)).
Proof.
  unfold RUN_TASK_COMMAND_handler, WATCH_TASK_COMMAND_handler.
  pose proof (runTask_never_throws w taskName s) as Hr.
  pose proof (watchTask_never_throws w taskName s) as Hw.
  destruct (runTask w taskName s) as [[[u|e] t] s1];
    destruct (watchTask w taskName s) as [[[u'|e'] t'] s1'];
    try discriminate.
  split; reflexivity.
Qed.

End RunnerPaths.

(** ** More on the file watcher *)

Section WatcherShape.

Import FileWatcher.

(** X17. [handleFileChange] never throws. It probes the backend exactly
    when the extension is enabled, and calls the change callback, once and
    with the path of the event, exactly when moreover the probe is
    fulfilled with some output. *)
Theorem change_callback_condition (w : World) (uri : string) (s : Script) :
  result_of (handleFileChange w uri s) = Ok tt
  /\ script_of (handleFileChange w uri s) = s
  /\ (In (E_execMiseCommand "tasks ls") (trace_of (handleFileChange w uri s))
      <-> isMiseExtensionEnabled w = true)
  /\ (In (E_onConfigChangeCallback uri) (trace_of (handleFileChange w uri s))
      <-> isMiseExtensionEnabled w = true
          /\ exists r, execMiseCommand w "tasks ls" = Ok r /\ stdout r <> "")
  /\ count is_probe (trace_of (handleFileChange w uri s)) <= 1
  /\ count is_callback (trace_of (handleFileChange w uri s)) <= 1.
Proof.
  unfold handleFileChange.
  destruct (isMiseExtensionEnabled w); simpl.
  2:{ split; [reflexivity|]. split; [reflexivity|].
      split; [split; [intros []|discriminate]|].
      split; [split; [intros []|intros [H _]; discriminate]|].
      unfold count. simpl. lia. }
  unfold try_catch, bind, await, emit, ret.
  assert (Hprobe : forall P : Prop,
    E_execMiseCommand "tasks ls" = E_execMiseCommand "tasks ls" \/ P
    <-> true = true).
  { intros P. split; [reflexivity|]. intros _. now left. }
  destruct (execMiseCommand w "tasks ls") as [r|e]; simpl.
  - unfold truthy_str.
    destruct (String.eqb (stdout r) "") eqn:Hout; simpl.
    + apply String.eqb_eq in Hout.
      split; [reflexivity|]. split; [reflexivity|].
      split; [apply Hprobe|]. split; [|unfold count; simpl; lia].
      split.
      * intros [H|[]]. discriminate.
      * intros (_ & r' & Hr & Hne). inversion Hr; subst. contradiction.
    + apply String.eqb_neq in Hout.
      assert (Hcb : forall P : Prop,
        E_execMiseCommand "tasks ls" = E_onConfigChangeCallback uri
        \/ E_onConfigChangeCallback uri = E_onConfigChangeCallback uri \/ P
        <-> true = true /\ exists r', Ok r = Ok r' /\ stdout r' <> "").
      { intros P. split.
        - intros _. split; [reflexivity|]. now exists r.
        - intros _. right. now left. }
      destruct (onConfigChangeCallback w uri) as [[]|e]; simpl;
        (split; [reflexivity|]); (split; [reflexivity|]);
        (split; [apply Hprobe|]); (split; [apply Hcb|]);
        unfold count; simpl; lia.
  - split; [reflexivity|]. split; [reflexivity|].
    split; [apply Hprobe|]. split; [|unfold count; simpl; lia].
    split.
    + intros [H|[H|[]]]; discriminate.
    + intros (_ & r' & Hr & _). discriminate.
Qed.

Variables misePatterns idiomaticFiles : string.
Variable allowedFileTaskDirs : list string.

Lemma fold_push_watchers (make : MiseConfigFile -> FileSystemWatcher) files :
  forall this,
    fileWatchers
      (fold_left (fun this file => push_watcher (make file) this) files this)
    = fileWatchers this ++ map make files
    /\ subscriptions
         (fold_left (fun this file => push_watcher (make file) this) files this)
       = subscriptions this.
Proof.
  induction files as [|f files IH]; intros this; simpl.
  - now rewrite app_nil_r.
  - destruct (IH (push_watcher (make f) this)) as [-> ->]. simpl.
    now rewrite <- app_assoc.
Qed.

Lemma constructor_success w rootFolder files :
  getRootFolder w = Some rootFolder ->
  getMiseConfigFiles w = Ok files ->
  constructor misePatterns idiomaticFiles allowedFileTaskDirs w =
    (Ok tt, [E_getMiseConfigFiles],
     mkFileWatcher
       (map register_handlers
          (expected_watchers misePatterns idiomaticFiles allowedFileTaskDirs
             rootFolder files))
       (seq 0 (3 + List.length files))).
Proof.
  intros Hroot Hfiles.
  unfold constructor, initializeFileWatcher. rewrite Hroot, Hfiles.
  destruct (fold_push_watchers
              (fun file => createFileSystemWatcher (file_path file) "*")
              files
              (push_watcher
                 (createFileSystemWatcher rootFolder
                    ("{" ^^ misePatterns ^^ "}"))
                 (mkFileWatcher [] []))) as [Hw Hs].
  assert (Hpw : forall fw this,
    fileWatchers (push_watcher fw this) = fileWatchers this ++ [fw])
    by reflexivity.
  assert (Hps : forall fw this,
    subscriptions (push_watcher fw this) = subscriptions this)
    by reflexivity.
  unfold register_all. rewrite !Hpw, !Hps, Hw, Hs, !Hpw, !Hps.
  cbn [fileWatchers subscriptions app].
  unfold expected_watchers. rewrite <- !app_assoc.
  cbn [app]. do 2 f_equal.
  rewrite length_cons, !length_app, length_map.
  apply (f_equal (seq 0)). cbn [List.length]. lia.
Qed.

Lemma expected_created rootFolder files fw :
  In fw (expected_watchers misePatterns idiomaticFiles allowedFileTaskDirs
           rootFolder files) ->
  forall kind, listeners kind fw = [].
Proof.
  unfold expected_watchers. intros [<-|Hin] kind; [now destruct kind|].
  apply in_app_or in Hin. destruct Hin as [Hin|[<-|[<-|[]]]];
    try now destruct kind.
  apply in_map_iff in Hin. destruct Hin as (f & <- & _). now destruct kind.
Qed.

Lemma registered_once fw kind :
  listeners kind fw = [] ->
  listeners kind (register_handlers fw) = [handleFileChange_bound].
Proof.
  destruct kind; simpl; now intros ->.
Qed.

Lemma expected_length rootFolder files :
  List.length (expected_watchers misePatterns idiomaticFiles
                 allowedFileTaskDirs rootFolder files)
  = 3 + List.length files.
Proof.
  unfold expected_watchers.
  rewrite length_cons, length_app, length_map. simpl. lia.
Qed.

Lemma handleFileChange_probes_once w uri s :
  isMiseExtensionEnabled w = true ->
  count is_probe (trace_of (handleFileChange w uri s)) = 1.
Proof.
  intros Hon. unfold handleFileChange. rewrite Hon. simpl.
  unfold try_catch, bind, await, emit, ret.
  destruct (execMiseCommand w "tasks ls") as [r|e]; [|reflexivity].
  destruct (truthy_str (stdout r)); [|reflexivity].
  now destruct (onConfigChangeCallback w uri) as [[]|e].
Qed.

(** X18. With a root folder and a listing of [files] config files, the
    constructor returns without logging; it holds 3 + n watchers: the
    config globs, one per config file on [*] under the file's path, the
    idiomatic files and the task directories, in this order; every watcher
    has exactly one listener on each of its three events, and is handed to
    the subscriptions once; [dispose] disposes of exactly these
    watchers. *)
Theorem successful_construction_watches_everything
    (w : World) (rootFolder : string) (files : list MiseConfigFile) :
  getRootFolder w = Some rootFolder ->
  getMiseConfigFiles w = Ok files ->
  exists this,
    constructor misePatterns idiomaticFiles allowedFileTaskDirs w
      = (Ok tt, [E_getMiseConfigFiles], this)
    /\ map (fun fw => (base fw, pattern fw)) (fileWatchers this)
       = map (fun fw => (base fw, pattern fw))
           (expected_watchers misePatterns idiomaticFiles allowedFileTaskDirs
              rootFolder files)
    /\ List.length (fileWatchers this) = 3 + List.length files
    /\ (forall fw kind,
          In fw (fileWatchers this) ->
          listeners kind fw = [handleFileChange_bound])
    /\ subscriptions this = seq 0 (3 + List.length files)
    /\ dispose this = subscriptions this.
Proof.
  intros Hroot Hfiles. eexists.
  split; [exact (constructor_success w rootFolder files Hroot Hfiles)|].
  cbn [fileWatchers subscriptions]. split; [|split; [|split; [|split]]].
  - rewrite map_map. now apply map_ext.
  - now rewrite length_map, expected_length.
  - intros fw kind Hin. apply in_map_iff in Hin.
    destruct Hin as (fw0 & <- & Hin0).
    apply registered_once. now apply (expected_created rootFolder files).
  - reflexivity.
  - unfold dispose. cbn [fileWatchers].
    now rewrite length_map, expected_length.
Qed.

(** X19. Without a root folder the constructor does nothing: the backend
    is not asked for its config files, nothing is logged, no watcher is
    created, and no file-system event has any effect. *)
Theorem no_root_folder_watches_nothing (w : World) :
  getRootFolder w = None ->
  constructor misePatterns idiomaticFiles allowedFileTaskDirs w
    = (Ok tt, [], mkFileWatcher [] [])
  /\ (forall r t this,
        constructor misePatterns idiomaticFiles allowedFileTaskDirs w
          = (r, t, this) ->
        dispose this = [] /\ forall h : FsHistory, fire_all this h = []).
Proof.
  intros Hroot.
  assert (Hc : constructor misePatterns idiomaticFiles allowedFileTaskDirs w
               = (Ok tt, [], mkFileWatcher [] [])).
  { unfold constructor, initializeFileWatcher. now rewrite Hroot. }
  split; [exact Hc|].
  intros r t this Heq. rewrite Hc in Heq. inversion Heq; subst.
  split; [reflexivity|].
  intros h. unfold fire_all.
  induction h as [|[[[w' i] kind] uri] h IH]; simpl; [reflexivity|].
  rewrite IH, app_nil_r. unfold fire. simpl. now destruct i.
Qed.

(** X20. After a successful construction, a change, create or delete event
    on any of the 3 + n watchers runs [handleFileChange] exactly once, and
    nothing else; so while the extension is enabled, every single event
    probes the backend once: events are not coalesced. *)
Theorem every_event_is_handled_once
    (w : World) (rootFolder : string) (files : list MiseConfigFile)
    (r : Result unit) (t : list Event) (this : MiseFileWatcher) :
  getRootFolder w = Some rootFolder ->
  getMiseConfigFiles w = Ok files ->
  constructor misePatterns idiomaticFiles allowedFileTaskDirs w
    = (r, t, this) ->
  forall (w' : World) (i : nat) (kind : FsEvent) (uri : string),
    i < 3 + List.length files ->
    fire this w' i kind uri = trace_of (handleFileChange w' uri [])
    /\ (isMiseExtensionEnabled w' = true ->
        count is_probe (fire this w' i kind uri) = 1).
Proof.
  intros Hroot Hfiles Hc w' i kind uri Hi.
  rewrite (constructor_success w rootFolder files Hroot Hfiles) in Hc.
  inversion Hc; subst. clear Hc.
  assert (Hfire : forall subs, fire
    (mkFileWatcher
       (map register_handlers
          (expected_watchers misePatterns idiomaticFiles allowedFileTaskDirs
             rootFolder files))
       subs)
    w' i kind uri = trace_of (handleFileChange w' uri [])).
  { intros subs. unfold fire. cbn [fileWatchers]. rewrite nth_error_map.
    destruct (nth_error
                (expected_watchers misePatterns idiomaticFiles
                   allowedFileTaskDirs rootFolder files) i) as [fw|] eqn:E.
    - cbn [option_map].
      rewrite (registered_once fw kind
                 (expected_created rootFolder files fw
                    (nth_error_In _ _ E) kind)).
      cbn [flat_map]. now rewrite app_nil_r.
    - apply nth_error_None in E. rewrite expected_length in E. lia. }
  split; [apply Hfire|].
  intros Hon. rewrite Hfire. now apply handleFileChange_probes_once.
Qed.

End WatcherShape.

(** ** The further properties at sample inputs *)

Lemma groups_in_first_seen_order_witness :
  Catalog.groupTasksBySource sample_tasks
  = Ok [("mise.toml",
         [mkTask "build" (Some "mise.toml") "Build";
          mkTask "test" (Some "mise.toml") "Test"]);
        ("Unknown", [mkTask "hello" None ""])]
  /\ ["mise.toml"; "Unknown"]
     = TaskTree.first_seen (map Catalog.source_key sample_tasks).
Proof.
  split; [reflexivity|].
  exact (groups_in_first_seen_order sample_tasks
           [("mise.toml",
             [mkTask "build" (Some "mise.toml") "Build";
              mkTask "test" (Some "mise.toml") "Test"]);
            ("Unknown", [mkTask "hello" None ""])]
           eq_refl).
Defined.

Lemma sample_tasks_safe :
  Forall (fun t => Catalog.inherited (Catalog.source_key t) = false)
    sample_tasks.
Proof. repeat constructor. Qed.

Lemma tree_shows_each_task_once_witness :
  Forall (fun t => Catalog.inherited (Catalog.source_key t) = false)
    sample_tasks
  /\ exists entries,
       TaskTree.getChildren (Ok sample_tasks) None
       = Ok (map TaskTree.group_item entries)
       /\ NoDup (map fst entries)
       /\ (forall key ts, In (key, ts) entries ->
             ts = Catalog.tasks_of key sample_tasks /\ ts <> [])
       /\ Permutation
            (TaskTree.leaves (Ok sample_tasks)
               (map TaskTree.group_item entries))
            (map TaskTree.TaskItem sample_tasks).
Proof.
  split; [exact sample_tasks_safe|].
  exact (tree_shows_each_task_once sample_tasks sample_tasks_safe).
Defined.

Lemma sample_tasks_named :
  Forall (fun t => TaskTree.array_index (Catalog.source_key t) = None)
    sample_tasks.
Proof. repeat constructor. Qed.

Lemma root_items_in_first_seen_order_witness :
  Forall (fun t => TaskTree.array_index (Catalog.source_key t) = None)
    sample_tasks
  /\ map TaskTree.label
       [TaskTree.SourceGroupItem "mise.toml"
          [mkTask "build" (Some "mise.toml") "Build";
           mkTask "test" (Some "mise.toml") "Test"];
        TaskTree.SourceGroupItem "Unknown" [mkTask "hello" None ""]]
     = TaskTree.first_seen (map Catalog.source_key sample_tasks).
Proof.
  split; [exact sample_tasks_named|].
  exact (root_items_in_first_seen_order sample_tasks _
           sample_tasks_named eq_refl).
Defined.

Lemma collected_tokens_positional_then_flags_witness :
  collectArgumentValues sample_info sample_answers
  = (Ok ["prod"; "a.txt"; "--verbose"; "--tag"; "v1"],
     trace_of (collectArgumentValues sample_info sample_answers), [])
  /\ exists pos fl,
       ["prod"; "a.txt"; "--verbose"; "--tag"; "v1"] = pos ++ fl
       /\ result_of (collect_args (args (usageSpec sample_info)) []
                       sample_answers) = Ok pos
       /\ List.length pos <= List.length (args (usageSpec sample_info))
       /\ List.length fl <= 2 * List.length (flags (usageSpec sample_info)).
Proof.
  split; [reflexivity|].
  exact (collected_tokens_positional_then_flags sample_info sample_answers
           _ _ _ eq_refl).
Defined.

Lemma sample_flags_named :
  Forall (fun f => flag_name f <> "") (flags (usageSpec sample_info)).
Proof. repeat constructor; discriminate. Qed.

Lemma collected_tokens_are_not_empty_witness :
  Forall (fun f => flag_name f <> "") (flags (usageSpec sample_info))
  /\ Forall (fun tok => tok <> "")
       ["prod"; "a.txt"; "--verbose"; "--tag"; "v1"].
Proof.
  split; [exact sample_flags_named|].
  exact (collected_tokens_are_not_empty sample_info sample_answers
           ["prod"; "a.txt"; "--verbose"; "--tag"; "v1"] _ _
           sample_flags_named eq_refl).
Defined.

Lemma collector_prompt_count_witness :
  exists prompts,
    trace_of (collectArgumentValues sample_info sample_answers)
    = E_collectArgumentValues :: prompts
    /\ Forall (fun ev => is_prompt ev = true) prompts
    /\ List.length (args (usageSpec sample_info))
         + List.length (flags (usageSpec sample_info))
       <= List.length prompts
       <= List.length (args (usageSpec sample_info))
          + 2 * List.length (flags (usageSpec sample_info)).
Proof.
  exact (collector_prompt_count sample_info sample_answers
           ["prod"; "a.txt"; "--verbose"; "--tag"; "v1"] _ [] eq_refl).
Defined.

Lemma collector_fails_only_on_required_witness :
  result_of (collectArgumentValues sample_info [Some "prod"; None])
  = Throw (MissingRequired "file")
  /\ exists a,
       In a (args (usageSpec sample_info))
       /\ arg_required a = true
       /\ MissingRequired "file" = MissingRequired (arg_name a).
Proof.
  split; [reflexivity|].
  exact (collector_fails_only_on_required sample_info [Some "prod"; None]
           (MissingRequired "file") eq_refl).
Defined.

Lemma sample_optional :
  Forall (fun a => arg_required a = false)
    (args (usageSpec (mkInfo (mkSpec [mkArg "env" false]
                                [mkFlag "--tag" (Some "name")])))).
Proof. repeat constructor. Qed.

Lemma collector_without_required_returns_witness :
  Forall (fun a => arg_required a = false)
    (args (usageSpec (mkInfo (mkSpec [mkArg "env" false]
                                [mkFlag "--tag" (Some "name")]))))
  /\ exists out,
       result_of
         (collectArgumentValues
            (mkInfo (mkSpec [mkArg "env" false] [mkFlag "--tag" (Some "name")]))
            [None; None])
       = Ok out.
Proof.
  split; [exact sample_optional|].
  exact (collector_without_required_returns
           (mkInfo (mkSpec [mkArg "env" false] [mkFlag "--tag" (Some "name")]))
           [None; None] sample_optional).
Defined.

Lemma required_prompt_fails_only_when_dismissed_witness :
  arg_required (mkArg "file" true) = true
  /\ prompt_arg (mkArg "file" true) [Some ""; None; Some "a.txt"]
     = (Ok None, [E_showInputBox "Enter value for file" "file"],
        [Some "a.txt"])
  /\ (result_of (collect_arg (mkArg "file" true) ["prod"]
                   [Some ""; None; Some "a.txt"])
      = Throw (MissingRequired "file")
      <-> (None : option string) = None).
Proof.
  split; [reflexivity|]. split; [reflexivity|].
  exact (proj2
    (required_prompt_fails_only_when_dismissed (mkArg "file" true) ["prod"]
       [Some ""; None; Some "a.txt"] None
       [E_showInputBox "Enter value for file" "file"] [Some "a.txt"]
       eq_refl eq_refl)).
Defined.

Lemma optional_argument_is_omitted_witness :
  arg_required (mkArg "env" false) = false
  /\ prompt_arg (mkArg "env" false) [Some ""; Some "a.txt"]
     = (Ok (Some ""), [E_showInputBox "Enter value for env" "env"],
        [Some "a.txt"])
  /\ collect_args [mkArg "env" false; mkArg "file" true] []
       [Some ""; Some "a.txt"]
     = (Ok ["a.txt"],
        [E_showInputBox "Enter value for env" "env";
         E_showInputBox "Enter value for file" "file"],
        []).
Proof.
  split; [reflexivity|]. split; [reflexivity|].
  exact (proj2
    (optional_argument_is_omitted (mkArg "env" false) []
       [Some ""; Some "a.txt"] (Some "")
       [E_showInputBox "Enter value for env" "env"] [Some "a.txt"]
       eq_refl eq_refl eq_refl) [mkArg "file" true]).
Defined.

Lemma collected_tokens_are_passed_on_witness :
  getTaskInfo (sample_world (Some sample_info)) "deploy"
  = Ok (Some sample_info)
  /\ needs_arguments sample_info = true
  /\ runTask (sample_world (Some sample_info)) "deploy" sample_answers
     = (Ok tt,
        [E_getTaskInfo "deploy"; E_collectArgumentValues;
         E_showInputBox "Enter value for env" "env";
         E_showInputBox "Enter value for file" "file";
         E_showQuickPick "Enable --verbose?";
         E_showQuickPick "Do you want to provide --tag?";
         E_showInputBox "Enter value for --tag" "name";
         E_runTask "deploy" ["prod"; "a.txt"; "--verbose"; "--tag"; "v1"]],
        []).
Proof.
  split; [reflexivity|]. split; [reflexivity|].
  exact (proj1
    (collected_tokens_are_passed_on (sample_world (Some sample_info))
       "deploy" sample_info sample_answers
       ["prod"; "a.txt"; "--verbose"; "--tag"; "v1"]
       (trace_of (collectArgumentValues sample_info sample_answers)) []
       eq_refl eq_refl eq_refl)).
Defined.

Lemma lookup_failure_is_reported_witness :
  getTaskInfo
    (mkWorld (Ok []) (fun _ => Ok (mkExec "" ""))
       (fun _ => Throw (Error "spawn mise ENOENT"))
       (fun _ _ => Ok tt) (fun _ _ => Ok tt) (fun _ => Ok (mkExec "" ""))
       true (fun _ => Ok tt) None (Ok []))
    "build"
  = Throw (Error "spawn mise ENOENT")
  /\ runTask
       (mkWorld (Ok []) (fun _ => Ok (mkExec "" ""))
          (fun _ => Throw (Error "spawn mise ENOENT"))
          (fun _ _ => Ok tt) (fun _ _ => Ok tt) (fun _ => Ok (mkExec "" ""))
          true (fun _ => Ok tt) None (Ok []))
       "build" []
     = (Ok tt,
        [E_getTaskInfo "build";
         E_showErrorMessage
           "Failed to run task 'build': Error: spawn mise ENOENT"],
        []).
Proof.
  split; [reflexivity|].
  exact (proj1
    (lookup_failure_is_reported
       (mkWorld (Ok []) (fun _ => Ok (mkExec "" ""))
          (fun _ => Throw (Error "spawn mise ENOENT"))
          (fun _ _ => Ok tt) (fun _ _ => Ok tt) (fun _ => Ok (mkExec "" ""))
          true (fun _ => Ok tt) None (Ok []))
       "build" [] (Error "spawn mise ENOENT") eq_refl)).
Defined.

Lemma watch_mirrors_run_witness :
  watchexec_missing (sample_watch_world []) = false
  /\ watchTask (sample_watch_world []) "build" []
     = (Ok tt,
        [E_getTools; E_execAsync "which watchexec"; E_getTaskInfo "build";
         E_showErrorMessage
           "Failed to run task 'build': Error: Task 'build' not found"],
        []).
Proof.
  split; [reflexivity|].
  exact (watch_mirrors_run (sample_watch_world []) "build" [] eq_refl).
Defined.

Lemma successful_construction_watches_everything_witness :
  getRootFolder (sample_watch_world [mkConfigFile "/ws/mise.toml"])
  = Some "/ws"
  /\ getMiseConfigFiles (sample_watch_world [mkConfigFile "/ws/mise.toml"])
     = Ok [mkConfigFile "/ws/mise.toml"]
  /\ exists this,
       FileWatcher.constructor "mise.toml" ".nvmrc" ["mise-tasks"; ".mise/tasks"]
         (sample_watch_world [mkConfigFile "/ws/mise.toml"])
       = (Ok tt, [E_getMiseConfigFiles], this)
       /\ map (fun fw => (FileWatcher.base fw, FileWatcher.pattern fw))
            (FileWatcher.fileWatchers this)
          = [("/ws", "{mise.toml}"); ("/ws/mise.toml", "*");
             ("/ws", "{.nvmrc}");
             ("/ws", "{mise-tasks/**/*,.mise/tasks/**/*}")]
       /\ List.length (FileWatcher.fileWatchers this) = 4
       /\ (forall fw kind,
             In fw (FileWatcher.fileWatchers this) ->
             FileWatcher.listeners kind fw
             = [FileWatcher.handleFileChange_bound])
       /\ FileWatcher.subscriptions this = [0; 1; 2; 3]
       /\ dispose this = FileWatcher.subscriptions this.
Proof.
  split; [reflexivity|]. split; [reflexivity|].
  exact (successful_construction_watches_everything
           "mise.toml" ".nvmrc" ["mise-tasks"; ".mise/tasks"]
           (sample_watch_world [mkConfigFile "/ws/mise.toml"]) "/ws"
           [mkConfigFile "/ws/mise.toml"] eq_refl eq_refl).
Defined.

Lemma no_root_folder_watches_nothing_witness :
  getRootFolder
    (mkWorld (Ok []) (fun _ => Ok (mkExec "" "")) (fun _ => Ok None)
       (fun _ _ => Ok tt) (fun _ _ => Ok tt) (fun _ => Ok (mkExec "" ""))
       true (fun _ => Ok tt) None (Ok [mkConfigFile "/ws/mise.toml"]))
  = None
  /\ FileWatcher.constructor "mise.toml" ".nvmrc" ["mise-tasks"]
       (mkWorld (Ok []) (fun _ => Ok (mkExec "" "")) (fun _ => Ok None)
          (fun _ _ => Ok tt) (fun _ _ => Ok tt) (fun _ => Ok (mkExec "" ""))
          true (fun _ => Ok tt) None (Ok [mkConfigFile "/ws/mise.toml"]))
     = (Ok tt, [], FileWatcher.mkFileWatcher [] []).
Proof.
  split; [reflexivity|].
  exact (proj1
    (no_root_folder_watches_nothing "mise.toml" ".nvmrc" ["mise-tasks"]
       (mkWorld (Ok []) (fun _ => Ok (mkExec "" "")) (fun _ => Ok None)
          (fun _ _ => Ok tt) (fun _ _ => Ok tt) (fun _ => Ok (mkExec "" ""))
          true (fun _ => Ok tt) None (Ok [mkConfigFile "/ws/mise.toml"]))
       eq_refl)).
Defined.

Lemma every_event_is_handled_once_witness :
  getRootFolder (sample_watch_world []) = Some "/ws"
  /\ getMiseConfigFiles (sample_watch_world []) = Ok []
  /\ 2 < 3 + List.length (@nil MiseConfigFile)
  /\ FileWatcher.fire
       (snd (FileWatcher.constructor "mise.toml" ".nvmrc" ["mise-tasks"]
               (sample_watch_world [])))
       (sample_watch_world []) 2 FileWatcher.DidDelete "/ws/mise-tasks/build"
     = [E_execMiseCommand "tasks ls";
        E_onConfigChangeCallback "/ws/mise-tasks/build"].
Proof.
  assert (Hi : 2 < 3 + List.length (@nil MiseConfigFile)) by (simpl; lia).
  split; [reflexivity|]. split; [reflexivity|]. split; [exact Hi|].
  exact (proj1
    (every_event_is_handled_once "mise.toml" ".nvmrc" ["mise-tasks"]
       (sample_watch_world []) "/ws" [] _ _ _ eq_refl eq_refl eq_refl
       (sample_watch_world []) 2 FileWatcher.DidDelete "/ws/mise-tasks/build"
       Hi)).
Defined.
